(** * ChatMessages: the conversation store (src/store/store.ts)

    A shallow embedding of the [Store] class and of the types of
    [utils.types.ts], followed by the properties of the event reducer
    [handleEvent] and of the read path [getConversations].

    Modelling conventions.
    - A JavaScript [number] that holds a timestamp or a counter is an
      integer of [Z], negative ones included: validation rejects only
      [0].  The template literal [`${timestamp}`] is its decimal rendering
      (stdpp's [pretty]), as JavaScript prints an integer below [1e21].
      Numbers that JavaScript prints with an exponent ([1e-7], [1e21]) are
      outside the model, and no statement below relies on two different
      pairs of conversation id and timestamp having different keys.
    - A JavaScript string is a [string]; [length] and [slice] count its
      characters.
    - An optional field ([user?], [subject?], [body?]) is an [option];
      the runtime also meets events without [timestamp] or
      [conversationId], so these two are options as well.
    - [Map<string, Conversation>] is iterated by [getConversations], so it
      is an association list in insertion order.  The other containers are
      only looked up, so they are a [gmap] or a [gset]; a typing set is a
      duplicate-free list, because [join] follows its insertion order.
    - The methods mutate [this]; here they take the store and return the
      new one. *)

From Stdlib Require Import ZArith Ascii String List Sorted Permutation.
From stdpp Require Import gmap strings list fin_maps pretty.

Local Open Scope Z_scope.

(** ** utils.types.ts *)

Module Conversation.
Record t : Type := mk {
  id : string;
  assignedUser : option string;
  subject : string;
  blurb : string;
  messageCount : Z;
  lastUpdatedTimestamp : Z
}.

Definition with_assignedUser (u : option string) (c : t) : t :=
  mk (id c) u (subject c) (blurb c) (messageCount c) (lastUpdatedTimestamp c).
Definition with_subject (x : string) (c : t) : t :=
  mk (id c) (assignedUser c) x (blurb c) (messageCount c) (lastUpdatedTimestamp c).
Definition with_blurb (x : string) (c : t) : t :=
  mk (id c) (assignedUser c) (subject c) x (messageCount c) (lastUpdatedTimestamp c).
Definition with_messageCount (n : Z) (c : t) : t :=
  mk (id c) (assignedUser c) (subject c) (blurb c) n (lastUpdatedTimestamp c).
Definition with_lastUpdatedTimestamp (n : Z) (c : t) : t :=
  mk (id c) (assignedUser c) (subject c) (blurb c) (messageCount c) n.
End Conversation.

Module EventData.
Record t : Type := mk {
  timestamp : option Z;
  conversationId : option string;
  user : option string;
  subject : option string;
  body : option string
}.
End EventData.

Module EventType.
Definition MessageReceived : string := "messageReceived".
Definition Assigned : string := "assigned".
Definition Unassigned : string := "unassigned".
Definition TypingStarted : string := "typingStarted".
Definition TypingStopped : string := "typingStopped".
End EventType.

Record ConversationEvent : Type := mkEvent {
  type : string;
  data : EventData.t
}.

(** [{ id: conversationId, ...defaultConversation }] *)
Definition defaultConversation (conversationId : string) : Conversation.t :=
  Conversation.mk conversationId None "" "" 0 0.

(** ** JavaScript primitives used by the store *)

(** [x || d] on an optional string: [undefined] and [''] are falsy. *)
Definition js_or (x : option string) (d : string) : string :=
  match x with
  | Some EmptyString => d
  | Some s => s
  | None => d
  end.

(** [user || null], and the guard [if (user)]. *)
Definition truthy (x : option string) : option string :=
  match x with
  | Some EmptyString => None
  | other => other
  end.

(** [!timestamp] is false exactly for a present, non-zero number. *)
Definition truthy_number (x : option Z) : option Z :=
  match x with
  | Some 0 => None
  | other => other
  end.

(** [s.slice(0, n)] *)
Fixpoint slice0 (n : nat) (s : string) : string :=
  match n, s with
  | O, _ => EmptyString
  | S _, EmptyString => EmptyString
  | S n', String c s' => String c (slice0 n' s')
  end.

(** [Map<string, V>] with its insertion order. *)
Section JsMap.
Context {V : Type}.

Fixpoint Map_get (k : string) (m : list (string * V)) : option V :=
  match m with
  | [] => None
  | (k', v) :: m' => if decide (k = k') then Some v else Map_get k m'
  end.

(** [set] overwrites in place, or appends a new key at the end. *)
Fixpoint Map_set (k : string) (v : V) (m : list (string * V)) : list (string * V) :=
  match m with
  | [] => [(k, v)]
  | (k', v') :: m' =>
      if decide (k = k') then (k', v) :: m' else (k', v') :: Map_set k v m'
  end.

Fixpoint Map_delete (k : string) (m : list (string * V)) : list (string * V) :=
  match m with
  | [] => []
  | (k', v') :: m' =>
      if decide (k = k') then Map_delete k m' else (k', v') :: Map_delete k m'
  end.

Definition Map_values (m : list (string * V)) : list V := map snd m.
Definition Map_keys (m : list (string * V)) : list string := map fst m.
End JsMap.

(** [Set<string>] with its insertion order. *)
Definition Set_add (x : string) (l : list string) : list string :=
  if decide (x ∈ l) then l else l ++ [x].

Definition Set_delete (x : string) (l : list string) : list string :=
  filter (λ y, y ≠ x) l.

(** [Array.prototype.includes] *)
Definition includes (x : string) (l : list string) : bool :=
  bool_decide (x ∈ l).

(** [Array.prototype.sort(cmp)]: the sort is stable, and for a comparator
    that is a consistent order the result of a stable sort is unique;
    it is computed here by insertion from the right. *)
Section JsSort.
Context {A : Type} (cmp : A → A → Z).

Fixpoint sort_insert (x : A) (l : list A) : list A :=
  match l with
  | [] => [x]
  | y :: l' => if decide (cmp x y ≤ 0) then x :: y :: l' else y :: sort_insert x l'
  end.

Definition sort (l : list A) : list A := foldr sort_insert [] l.
End JsSort.

(** ** The store *)

Record Store : Type := mkStore {
  conversations : list (string * Conversation.t);
  lastBody : gmap string string;
  blackListedUsers : list string;
  uniqueEvents : gset string;
  typingUsers : gmap string (list string)
}.

Definition new_Store : Store :=
  mkStore [] ∅ ["John_Doe"] ∅ ∅.

Definition with_conversations (x : list (string * Conversation.t)) (st : Store) : Store :=
  mkStore x (lastBody st) (blackListedUsers st) (uniqueEvents st) (typingUsers st).
Definition with_lastBody (x : gmap string string) (st : Store) : Store :=
  mkStore (conversations st) x (blackListedUsers st) (uniqueEvents st) (typingUsers st).
Definition with_uniqueEvents (x : gset string) (st : Store) : Store :=
  mkStore (conversations st) (lastBody st) (blackListedUsers st) x (typingUsers st).
Definition with_typingUsers (x : gmap string (list string)) (st : Store) : Store :=
  mkStore (conversations st) (lastBody st) (blackListedUsers st) (uniqueEvents st) x.

(** The phrase computed from an array of typing users (lines 173-176 and
    199-202 of store.ts). *)
Definition replying (typing : list string) : string :=
  match typing with
  | [] => ""
  | [u] => u +:+ " is replying..."
  | _ => String.concat ", " typing +:+ " are replying..."
  end.

Definition getBlurbForTypingUsers (conversationId : string) (st : Store) : string :=
  replying (default [] (typingUsers st !! conversationId)).

Definition addAndgetBlurbForTypingUsers
    (conversationId : string) (user : option string) (st : Store) : string * Store :=
  let typingUser := default [] (typingUsers st !! conversationId) in
  let st :=
    match truthy user with
    | Some u =>
        with_typingUsers (<[conversationId := Set_add u typingUser]> (typingUsers st)) st
    | None => st
    end in
  (getBlurbForTypingUsers conversationId st, st).

Definition deleteBlurbForTypingUsers
    (conversationId : string) (conversation : Conversation.t) (user : option string)
    (st : Store) : string * Store :=
  match typingUsers st !! conversationId with
  | Some found =>
      let st :=
        match truthy user with
        | Some u =>
            with_typingUsers (<[conversationId := Set_delete u found]> (typingUsers st)) st
        | None => st
        end in
      match typingUsers st !! conversationId with
      | Some [] =>
          (js_or (lastBody st !! conversationId) "",
           with_typingUsers (delete conversationId (typingUsers st)) st)
      | other => (replying (default [] other), st)
      end
  | None => ("", st)
  end.

(** The [every] over the keys of [defaultConversation]: all fields but
    [id] are compared with their defaults. *)
Definition isEmpty (c : Conversation.t) : bool :=
  bool_decide (Conversation.assignedUser c = None)
  && bool_decide (Conversation.subject c = "")
  && bool_decide (Conversation.blurb c = "")
  && bool_decide (Conversation.messageCount c = 0)
  && bool_decide (Conversation.lastUpdatedTimestamp c = 0).

Definition isConversationEmptyThenRemove (conversationId : string) (st : Store) : bool * Store :=
  match Map_get conversationId (conversations st) with
  | None => (true, st)
  | Some conversation =>
      if isEmpty conversation
      then (true, with_conversations (Map_delete conversationId (conversations st)) st)
      else (false, st)
  end.

(** [`${conversationId}-${timestamp}`] *)
Definition eventId (conversationId : string) (timestamp : Z) : string :=
  conversationId +:+ "-" +:+ pretty timestamp.

(** The ordering guard of line 91. *)
Definition stale (conversation : option Conversation.t) (conversationId : string) (timestamp : Z) : bool :=
  match conversation with
  | Some c =>
      bool_decide (Conversation.id c = conversationId)
      && bool_decide (Conversation.lastUpdatedTimestamp c > timestamp)
  | None => false
  end.

(** The guard of line 125: nobody is typing in the conversation. *)
Definition nobodyTyping (conversationId : string) (st : Store) : bool :=
  match typingUsers st !! conversationId with
  | None => true
  | Some typing => bool_decide (length typing = 0%nat)
  end.

(** The body of the [switch] for the five known kinds: the conversation
    object after the case, and the store after the calls the case makes.
    [None] is the [default] arm. *)
Definition dispatch (type : string) (conversationId : string) (d : EventData.t)
    (conversation : Conversation.t) (st : Store) : option (Conversation.t * Store) :=
  if decide (type = EventType.MessageReceived) then
    let conversation :=
      Conversation.with_subject
        (js_or (EventData.subject d) (Conversation.subject conversation)) conversation in
    let conversation :=
      Conversation.with_messageCount (Conversation.messageCount conversation + 1) conversation in
    if nobodyTyping conversationId st then
      Some (Conversation.with_blurb
              (js_or (slice0 256 <$> EventData.body d) (Conversation.blurb conversation))
              conversation, st)
    else
      Some (conversation,
            with_lastBody (<[conversationId := js_or (EventData.body d) ""]> (lastBody st)) st)
  else if decide (type = EventType.Assigned) then
    Some (Conversation.with_assignedUser (truthy (EventData.user d)) conversation, st)
  else if decide (type = EventType.Unassigned) then
    Some (Conversation.with_assignedUser None conversation, st)
  else if decide (type = EventType.TypingStarted) then
    let '(b, st) := addAndgetBlurbForTypingUsers conversationId (EventData.user d) st in
    Some (Conversation.with_blurb b conversation, st)
  else if decide (type = EventType.TypingStopped) then
    let '(b, st) := deleteBlurbForTypingUsers conversationId conversation (EventData.user d) st in
    Some (Conversation.with_blurb b conversation, st)
  else None.

Definition handleEvent (event : ConversationEvent) (st : Store) : Store :=
  let d := data event in
  match truthy_number (EventData.timestamp d) with
  | None => st
  | Some timestamp =>
  match truthy (EventData.conversationId d) with
  | None => st
  | Some conversationId =>
      let conversation := Map_get conversationId (conversations st) in
      if stale conversation conversationId timestamp then st else
      let eventId := eventId conversationId timestamp in
      if decide (eventId ∈ uniqueEvents st) then st else
      let st := with_uniqueEvents ({[eventId]} ∪ uniqueEvents st) st in
      let st :=
        match conversation with
        | None =>
            with_conversations
              (Map_set conversationId (defaultConversation conversationId) (conversations st)) st
        | Some _ => st
        end in
      let conversation := default (defaultConversation conversationId) conversation in
      match dispatch (type event) conversationId d conversation st with
      | Some (conversation, st) =>
          with_conversations
            (Map_set conversationId
               (Conversation.with_lastUpdatedTimestamp timestamp conversation)
               (conversations st)) st
      | None =>
          let st := with_uniqueEvents (uniqueEvents st ∖ {[eventId]}) st in
          snd (isConversationEmptyThenRemove conversationId st)
      end
  end
  end.

(** [getConversations] reads the store and leaves it as it is; the pair
    is the returned array and the store after the call. *)
Definition getConversations (st : Store) : list Conversation.t * Store :=
  let conversations := Map_values (conversations st) in
  let blackListedUsers := blackListedUsers st in
  let filteredUsers :=
    filter (λ conversation,
              negb (includes (js_or (Conversation.assignedUser conversation) "") blackListedUsers))
           conversations in
  let sortedConversations :=
    sort (λ a b, Conversation.lastUpdatedTimestamp b - Conversation.lastUpdatedTimestamp a)
         filteredUsers in
  (sortedConversations, st).

(** A run of the reducer over a list of events, oldest call first. *)
Definition handleEvents (events : list ConversationEvent) (st : Store) : Store :=
  foldl (λ st event, handleEvent event st) st events.

(** ** Notions used by the statements *)

(** An event passes validation, the ordering guard and the dedup guard,
    with the timestamp and the conversation id it carries. *)
Definition accepted (event : ConversationEvent) (st : Store)
    (timestamp : Z) (conversationId : string) : Prop :=
  truthy_number (EventData.timestamp (data event)) = Some timestamp
  ∧ truthy (EventData.conversationId (data event)) = Some conversationId
  ∧ stale (Map_get conversationId (conversations st)) conversationId timestamp = false
  ∧ eventId conversationId timestamp ∉ uniqueEvents st.

(** The guards of [handleEvent] as a test: the timestamp and the
    conversation id with which the event reaches the [switch]. *)
Definition admitted (event : ConversationEvent) (st : Store) : option (Z * string) :=
  match truthy_number (EventData.timestamp (data event)),
        truthy (EventData.conversationId (data event)) with
  | Some timestamp, Some conversationId =>
      if stale (Map_get conversationId (conversations st)) conversationId timestamp then None
      else if decide (eventId conversationId timestamp ∈ uniqueEvents st) then None
      else Some (timestamp, conversationId)
  | _, _ => None
  end.

(** The number of [messageReceived] events of a conversation that a run
    of [handleEvent] accepts. *)
Fixpoint acceptedMessages (conversationId : string)
    (events : list ConversationEvent) (st : Store) : Z :=
  match events with
  | [] => 0
  | event :: events' =>
      (match admitted event st with
       | Some (_, cid) =>
           if bool_decide (cid = conversationId)
              && bool_decide (type event = EventType.MessageReceived)
           then 1 else 0
       | None => 0
       end) + acceptedMessages conversationId events' (handleEvent event st)
  end.

(** Some event of the run is a [messageReceived] event of the
    conversation that is accepted while its typing set is not empty: the
    events that write the pending body of the conversation (line 129). *)
Fixpoint stashedBetween (conversationId : string)
    (events : list ConversationEvent) (st : Store) : bool :=
  match events with
  | [] => false
  | event :: events' =>
      (bool_decide (type event = EventType.MessageReceived)
       && match admitted event st with
          | Some (_, cid) => bool_decide (cid = conversationId)
          | None => false
          end
       && negb (nobodyTyping conversationId st))
      || stashedBetween conversationId events' (handleEvent event st)
  end.

(** The five kinds of [EventType]. *)
Definition knownTypes : list string :=
  [EventType.MessageReceived; EventType.Assigned; EventType.Unassigned;
   EventType.TypingStarted; EventType.TypingStopped].

(** The stores that a new [Store] reaches through [handleEvent]. *)
Inductive reachable : Store → Prop :=
  | reachable_new : reachable new_Store
  | reachable_handleEvent event st :
      reachable st → reachable (handleEvent event st).

(** The conversation object the [switch] works on, and the store at the
    [switch]: the key is registered and the entry exists. *)
Definition current (conversationId : string) (st : Store) : Conversation.t :=
  default (defaultConversation conversationId) (Map_get conversationId (conversations st)).

Definition registered (conversationId : string) (timestamp : Z) (st : Store) : Store :=
  let st := with_uniqueEvents ({[eventId conversationId timestamp]} ∪ uniqueEvents st) st in
  match Map_get conversationId (conversations st) with
  | None =>
      with_conversations
        (Map_set conversationId (defaultConversation conversationId) (conversations st)) st
  | Some _ => st
  end.

(** Shorthand for the events of the examples. *)
Definition event_of (ty : string) (ts : Z) (cid : string) (u s b : option string) : ConversationEvent :=
  mkEvent ty (EventData.mk (Some ts) (Some cid) u s b).

(** What every reachable store satisfies. *)
Record Store_ok (st : Store) : Prop := {
  (** an entry is filed under its own id *)
  ok_id : ∀ k c, Map_get k (conversations st) = Some c → Conversation.id c = k;
  (** an entry that stays has been stamped by a known event *)
  ok_stamped : ∀ k c,
    Map_get k (conversations st) = Some c → Conversation.lastUpdatedTimestamp c ≠ 0;
  (** the keys of the map are distinct *)
  ok_keys : NoDup (Map_keys (conversations st));
  (** the block-list is the one the class starts with *)
  ok_blackList : blackListedUsers st = ["John_Doe"%string]
}.

(** The conversation is assigned to a user of the block-list. *)
Definition blocked (st : Store) (c : Conversation.t) : Prop :=
  match Conversation.assignedUser c with
  | Some u => u ∈ blackListedUsers st
  | None => False
  end.

Global Instance blocked_dec st c : Decision (blocked st c).
Proof. unfold blocked. destruct (Conversation.assignedUser c); apply _. Defined.

(** The typing set once the named user has stopped: [found.delete(user)]
    runs only for a user that is present and not the empty string. *)
Definition without_user (user : option string) (found : list string) : list string :=
  match truthy user with
  | Some u => Set_delete u found
  | None => found
  end.

(** A typing set that is stored is a set of non-empty names and is never
    empty. *)
Definition Typing_ok (st : Store) : Prop :=
  ∀ k l, typingUsers st !! k = Some l → l ≠ [] ∧ (EmptyString ∉ l) ∧ NoDup l.

(** A conversation that has a typing set has an entry. *)
Definition Typing_filed (st : Store) : Prop :=
  ∀ k l, typingUsers st !! k = Some l → is_Some (Map_get k (conversations st)).

(** Where a blurb comes from: while users are typing it is their phrase;
    otherwise it is at most 256 characters long, or it is the pending body
    of the conversation. *)
Definition blurb_source (k : string) (b : string)
    (typing : gmap string (list string)) (pending : gmap string string) : Prop :=
  match typing !! k with
  | Some users => b = replying users
  | None => (String.length b ≤ 256)%nat ∨ pending !! k = Some b
  end.

Definition Blurb_ok (st : Store) : Prop :=
  ∀ k c, Map_get k (conversations st) = Some c →
         blurb_source k (Conversation.blurb c) (typingUsers st) (lastBody st).

(** ['A'.repeat(300)] of the test of the truncation. *)
Fixpoint repeat_string (s : string) (n : nat) : string :=
  match n with
  | O => EmptyString
  | S n' => s +:+ repeat_string s n'
  end.

(** Closed facts about concrete stores are settled by evaluation. *)
Ltac by_evaluation :=
  cbv zeta;
  lazymatch goal with
  | |- _ = _ => vm_compute; reflexivity
  | |- _ => apply (bool_decide_unpack _); vm_compute; exact I
  end.

Ltac accepted_by_evaluation :=
  split; [reflexivity|]; split; [reflexivity|]; split; by_evaluation.

(** ** The insertion-ordered map *)

Section JsMapFacts.
Context {V : Type}.
Implicit Types (m : list (string * V)) (k : string) (v : V).

Lemma Map_get_set_eq k v m : Map_get k (Map_set k v m) = Some v.
Proof.
  induction m as [|[k' v'] m IH]; simpl.
  - by rewrite decide_True.
  - destruct (decide (k = k')) as [->|Hne]; simpl.
    + by rewrite decide_True.
    + by rewrite decide_False.
Qed.

Lemma Map_get_set_ne k k' v m : k ≠ k' → Map_get k' (Map_set k v m) = Map_get k' m.
Proof.
  intros Hne. induction m as [|[k0 v0] m IH]; simpl.
  - by rewrite decide_False.
  - destruct (decide (k = k0)) as [->|Hk]; simpl.
    + by rewrite !decide_False.
    + destruct (decide (k' = k0)); done.
Qed.

Lemma Map_get_delete_eq k m : Map_get k (Map_delete k m) = None.
Proof.
  induction m as [|[k' v'] m IH]; simpl; [done|].
  destruct (decide (k = k')); simpl; [done|]. by rewrite decide_False.
Qed.

Lemma Map_get_delete_ne k k' m : k ≠ k' → Map_get k' (Map_delete k m) = Map_get k' m.
Proof.
  intros Hne. induction m as [|[k0 v0] m IH]; simpl; [done|].
  destruct (decide (k = k0)) as [->|Hk]; simpl.
  - by rewrite decide_False.
  - destruct (decide (k' = k0)); done.
Qed.

(** A key set and deleted at once leaves the map as it was. *)
Lemma Map_delete_set_absent k v m :
  Map_get k m = None → Map_delete k (Map_set k v m) = m.
Proof.
  induction m as [|[k' v'] m IH]; simpl.
  - by rewrite decide_True.
  - destruct (decide (k = k')) as [->|Hne]; [done|]. intros H.
    simpl. rewrite decide_False by done. by rewrite IH.
Qed.

Lemma Map_keys_set_present k v v' m :
  Map_get k m = Some v' → Map_keys (Map_set k v m) = Map_keys m.
Proof.
  induction m as [|[k' v0] m IH]; simpl; [done|].
  destruct (decide (k = k')) as [->|Hne]; [done|].
  intros H. simpl. by rewrite IH.
Qed.

Lemma Map_keys_set_absent k v m :
  Map_get k m = None → Map_keys (Map_set k v m) = Map_keys m ++ [k].
Proof.
  induction m as [|[k' v0] m IH]; simpl; [done|].
  destruct (decide (k = k')) as [->|Hne]; [done|].
  intros H. simpl. by rewrite IH.
Qed.

Lemma Map_get_None k m : Map_get k m = None ↔ k ∉ Map_keys m.
Proof.
  induction m as [|[k' v0] m IH]; simpl.
  - split; [intros _; apply not_elem_of_nil | done].
  - rewrite not_elem_of_cons. destruct (decide (k = k')) as [->|Hne].
    + split; [done | intros [? _]; done].
    + rewrite IH. tauto.
Qed.

Lemma Map_get_elem_of k v m : Map_get k m = Some v → (k, v) ∈ m.
Proof.
  induction m as [|[k' v0] m IH]; simpl; [done|].
  destruct (decide (k = k')) as [->|Hne].
  - intros [= ->]. apply list_elem_of_here.
  - intros H. apply list_elem_of_further. auto.
Qed.

Lemma elem_of_Map_get k v m : NoDup (Map_keys m) → (k, v) ∈ m → Map_get k m = Some v.
Proof.
  induction m as [|[k' v0] m IH]; simpl.
  - intros _ H. by apply elem_of_nil in H.
  - intros Hnd Hin. apply NoDup_cons in Hnd as [Hk Hnd].
    apply elem_of_cons in Hin as [[= -> ->]|Hin].
    + by rewrite decide_True.
    + destruct (decide (k = k')) as [->|Hne]; [|auto].
      exfalso. apply Hk. apply (list_elem_of_fmap_2 fst) in Hin. apply Hin.
  Qed.
End JsMapFacts.

(** ** The scenarios of the specification and of the test suite *)

Example scenario_duplicate :
  let event := event_of EventType.MessageReceived 1 "c1" None None (Some "hello"%string) in
  Map_get "c1" (conversations (handleEvents [event; event] new_Store))
  = Some (Conversation.mk "c1" None "" "hello" 1 1).
Proof. by_evaluation. Qed.

Example scenario_out_of_order :
  Map_get "c1"
    (conversations
       (handleEvents
          [event_of EventType.MessageReceived 20 "c1" None None (Some "B"%string);
           event_of EventType.MessageReceived 10 "c1" None None (Some "A"%string)]
          new_Store))
  = Some (Conversation.mk "c1" None "" "B" 1 20).
Proof. by_evaluation. Qed.

Example scenario_typing :
  Map_get "c1"
    (conversations
       (handleEvents
          [event_of EventType.TypingStarted 1 "c1" (Some "u1"%string) None None;
           event_of EventType.MessageReceived 2 "c1" None None (Some "hi"%string);
           event_of EventType.TypingStopped 3 "c1" (Some "u1"%string) None None]
          new_Store))
  = Some (Conversation.mk "c1" None "" "hi" 1 3).
Proof. by_evaluation. Qed.

Example scenario_blocked :
  let st :=
    handleEvents
      [event_of EventType.MessageReceived 1 "c1" None None (Some "hello"%string);
       event_of EventType.Assigned 2 "c1" (Some "John_Doe"%string) None None]
      new_Store in
  (getConversations st).1 = []
  ∧ Map_get "c1" (conversations st)
    = Some (Conversation.mk "c1" (Some "John_Doe"%string) "" "hello" 1 2).
Proof. split; by_evaluation. Qed.

Example scenario_unknown_kind :
  let st := handleEvent (event_of "bogus" 1 "c9" None None None) new_Store in
  (getConversations st).1 = [] ∧ Map_get "c9" (conversations st) = None.
Proof. split; by_evaluation. Qed.

Example scenario_two_users_typing :
  Conversation.blurb
    <$> Map_get "c1"
          (conversations
             (handleEvents
                [event_of EventType.TypingStarted 1 "c1" (Some "u1"%string) None None;
                 event_of EventType.TypingStarted 2 "c1" (Some "u2"%string) None None;
                 event_of EventType.TypingStarted 3 "c1" (Some "u1"%string) None None]
                new_Store))
  = Some "u1, u2 are replying..."%string.
Proof. by_evaluation. Qed.

Example scenario_sorted :
  Conversation.id
    <$> (getConversations
           (handleEvents
              [event_of EventType.MessageReceived 3 "c1" None None (Some "one"%string);
               event_of EventType.MessageReceived 9 "c2" None None (Some "two"%string);
               event_of EventType.MessageReceived 5 "c3" None None (Some "three"%string)]
              new_Store)).1
  = ["c2"%string; "c3"%string; "c1"%string].
Proof. by_evaluation. Qed.

(** ** The reducer, case by case *)

Lemma unregister (x : string) (U : gset string) : x ∉ U → ({[x]} ∪ U) ∖ {[x]} = U.
Proof. intros Hx. apply set_eq. intros y. rewrite elem_of_difference, elem_of_union, !elem_of_singleton. split; [tauto|]. intros Hy. split; [tauto|]. congruence. Qed.

Lemma truthy_Some x s : truthy x = Some s → x = Some s ∧ s ≠ EmptyString.
Proof. destruct x as [[|a r]|]; simpl; intros H; by simplify_eq. Qed.

Lemma truthy_number_Some x n : truthy_number x = Some n → x = Some n ∧ n ≠ 0.
Proof. destruct x as [[|p|p]|]; simpl; intros H; by simplify_eq. Qed.

(** An event that is not accepted leaves the store as it is. *)
Lemma handleEvent_rejected event st :
  (∀ timestamp conversationId, ¬ accepted event st timestamp conversationId) →
  handleEvent event st = st.
Proof.
  intros Hrej. unfold handleEvent.
  destruct (truthy_number _) as [timestamp|] eqn:Hts; [|done].
  destruct (truthy _) as [conversationId|] eqn:Hcid; [|done].
  destruct (stale _ _ _) eqn:Hstale; [done|].
  destruct (decide _) as [|Hfresh]; [done|].
  destruct (Hrej timestamp conversationId). by repeat split.
Qed.

(** An accepted event reaches the [switch]. *)
Lemma handleEvent_accepted event st timestamp conversationId :
  accepted event st timestamp conversationId →
  handleEvent event st =
    match dispatch (type event) conversationId (data event)
            (current conversationId st) (registered conversationId timestamp st) with
    | Some (conversation, st') =>
        with_conversations
          (Map_set conversationId
             (Conversation.with_lastUpdatedTimestamp timestamp conversation)
             (conversations st')) st'
    | None =>
        let st' := registered conversationId timestamp st in
        snd (isConversationEmptyThenRemove conversationId
               (with_uniqueEvents
                  (uniqueEvents st' ∖ {[eventId conversationId timestamp]}) st'))
    end.
Proof.
  intros (Hts & Hcid & Hstale & Hfresh). unfold handleEvent.
  rewrite Hts, Hcid, Hstale. rewrite decide_False by done.
  unfold registered, current. simpl.
  by destruct (Map_get conversationId (conversations st)).
Qed.

(** A key that is already recorded stops the event, whatever the ordering
    guard says. *)
Lemma handleEvent_recorded event st timestamp conversationId :
  truthy_number (EventData.timestamp (data event)) = Some timestamp →
  truthy (EventData.conversationId (data event)) = Some conversationId →
  eventId conversationId timestamp ∈ uniqueEvents st →
  handleEvent event st = st.
Proof.
  intros Hts Hcid Hin. apply handleEvent_rejected.
  intros ts cid (Hts' & Hcid' & _ & Hfresh). congruence.
Qed.

Lemma admitted_Some event st timestamp conversationId :
  admitted event st = Some (timestamp, conversationId)
  ↔ accepted event st timestamp conversationId.
Proof.
  unfold admitted, accepted. split.
  - destruct (truthy_number _) as [ts|]; [|done].
    destruct (truthy _) as [cid|]; [|done].
    destruct (stale _ _ _) eqn:Hstale; [done|]. case_decide; [done|].
    intros [= <- <-]. done.
  - intros (-> & -> & -> & Hfresh). by rewrite decide_False.
Qed.

Lemma admitted_None event st : admitted event st = None → handleEvent event st = st.
Proof.
  intros Hnone. apply handleEvent_rejected. intros ts cid Hacc%admitted_Some. congruence.
Qed.

Lemma dispatch_None ty cid d c st :
  dispatch ty cid d c st = None ↔ ty ∉ knownTypes.
Proof.
  unfold dispatch, knownTypes. rewrite !not_elem_of_cons.
  repeat case_decide; repeat case_match; try (split; [done | tauto]).
  split; [intros _ | done]. repeat split; try done. apply not_elem_of_nil.
Qed.

(** The helpers called from the [switch] touch the typing sets and the
    pending bodies only. *)
Lemma addAndgetBlurbForTypingUsers_frame cid user st :
  let st' := (addAndgetBlurbForTypingUsers cid user st).2 in
  conversations st' = conversations st
  ∧ uniqueEvents st' = uniqueEvents st
  ∧ blackListedUsers st' = blackListedUsers st
  ∧ lastBody st' = lastBody st.
Proof. unfold addAndgetBlurbForTypingUsers. by destruct (truthy user). Qed.

Lemma deleteBlurbForTypingUsers_frame cid c user st :
  let st' := (deleteBlurbForTypingUsers cid c user st).2 in
  conversations st' = conversations st
  ∧ uniqueEvents st' = uniqueEvents st
  ∧ blackListedUsers st' = blackListedUsers st
  ∧ lastBody st' = lastBody st.
Proof.
  unfold deleteBlurbForTypingUsers.
  destruct (typingUsers st !! cid) as [found|]; [|done].
  destruct (truthy user); simpl.
  - rewrite lookup_insert_eq. by destruct (Set_delete _ _).
  - by destruct (typingUsers st !! cid) as [[|]|].
Qed.

Lemma dispatch_frame ty cid d c st c' st' :
  dispatch ty cid d c st = Some (c', st') →
  conversations st' = conversations st
  ∧ uniqueEvents st' = uniqueEvents st
  ∧ blackListedUsers st' = blackListedUsers st
  ∧ Conversation.id c' = Conversation.id c.
Proof.
  unfold dispatch. repeat case_decide.
  - destruct (nobodyTyping cid st); by intros [= <- <-].
  - by intros [= <- <-].
  - by intros [= <- <-].
  - destruct (addAndgetBlurbForTypingUsers cid _ st) as [b s] eqn:E.
    intros [= <- <-]. pose proof (addAndgetBlurbForTypingUsers_frame cid (EventData.user d) st) as Hf.
    rewrite E in Hf. simpl in Hf. tauto.
  - destruct (deleteBlurbForTypingUsers cid c _ st) as [b s] eqn:E.
    intros [= <- <-]. pose proof (deleteBlurbForTypingUsers_frame cid c (EventData.user d) st) as Hf.
    rewrite E in Hf. simpl in Hf. tauto.
  - done.
Qed.

(** The [default] arm: the registration is undone and an entry in the
    default shape is pruned. *)
Lemma handleEvent_unknown event st timestamp conversationId :
  accepted event st timestamp conversationId →
  type event ∉ knownTypes →
  handleEvent event st =
    match Map_get conversationId (conversations st) with
    | Some c =>
        if isEmpty c
        then with_conversations (Map_delete conversationId (conversations st)) st
        else st
    | None => st
    end.
Proof.
  intros Hacc Hty. rewrite (handleEvent_accepted _ _ _ _ Hacc).
  apply (dispatch_None _ conversationId (data event) (current conversationId st)
           (registered conversationId timestamp st)) in Hty as ->.
  destruct Hacc as (_ & _ & _ & Hfresh).
  unfold registered, isConversationEmptyThenRemove. simpl.
  destruct (Map_get conversationId (conversations st)) as [c|] eqn:Hget; simpl.
  - rewrite Hget. rewrite unregister by done. destruct (isEmpty c); simpl.
    + by destruct st.
    + by destruct st.
  - rewrite Map_get_set_eq. simpl.
    rewrite Map_delete_set_absent by done. rewrite unregister by done.
    by destruct st.
Qed.

(** After a known kind the entry carries the event's timestamp and the
    key is recorded. *)
Lemma handleEvent_known event st timestamp conversationId c' st' :
  accepted event st timestamp conversationId →
  dispatch (type event) conversationId (data event)
    (current conversationId st) (registered conversationId timestamp st) = Some (c', st') →
  handleEvent event st =
    with_conversations
      (Map_set conversationId (Conversation.with_lastUpdatedTimestamp timestamp c')
         (conversations st')) st'
  ∧ Map_get conversationId (conversations (handleEvent event st))
    = Some (Conversation.with_lastUpdatedTimestamp timestamp c')
  ∧ eventId conversationId timestamp ∈ uniqueEvents (handleEvent event st).
Proof.
  intros Hacc Hd. rewrite (handleEvent_accepted _ _ _ _ Hacc), Hd.
  split; [done|]. simpl. split; [apply Map_get_set_eq|].
  apply dispatch_frame in Hd as (_ & -> & _).
  unfold registered. simpl.
  destruct (Map_get conversationId (conversations st)); simpl; set_solver.
Qed.

(** ** What every reachable store satisfies *)

Lemma handleEvent_cases event st :
  handleEvent event st = st ∨ ∃ timestamp conversationId, accepted event st timestamp conversationId.
Proof.
  destruct (truthy_number (EventData.timestamp (data event))) as [timestamp|] eqn:Hts.
  2: { left. apply handleEvent_rejected. intros ts cid (? & _). congruence. }
  destruct (truthy (EventData.conversationId (data event))) as [conversationId|] eqn:Hcid.
  2: { left. apply handleEvent_rejected. intros ts cid (_ & ? & _). congruence. }
  destruct (stale (Map_get conversationId (conversations st)) conversationId timestamp) eqn:Hstale.
  { left. apply handleEvent_rejected. intros ts cid (? & ? & ? & _). congruence. }
  destruct (decide (eventId conversationId timestamp ∈ uniqueEvents st)) as [Hin|Hfresh].
  { left. by eapply handleEvent_recorded. }
  right. by exists timestamp, conversationId.
Qed.

Section JsMapKeys.
Context {V : Type}.
Implicit Types (m : list (string * V)) (k : string) (v : V).

Lemma Map_keys_set_NoDup k v m : NoDup (Map_keys m) → NoDup (Map_keys (Map_set k v m)).
Proof.
  intros Hnd. destruct (Map_get k m) as [v'|] eqn:Hget.
  - by rewrite (Map_keys_set_present _ _ _ _ Hget).
  - rewrite (Map_keys_set_absent _ _ _ Hget).
    apply NoDup_app. split; [done|]. split; [|apply NoDup_singleton].
    intros x Hx ->%list_elem_of_singleton. by apply Map_get_None in Hget.
Qed.

Lemma Map_keys_delete_NoDup k m : NoDup (Map_keys m) → NoDup (Map_keys (Map_delete k m)).
Proof.
  induction m as [|[k' v'] m IH]; simpl; [done|].
  intros [Hk Hnd]%NoDup_cons. destruct (decide (k = k')); simpl; [auto|].
  apply NoDup_cons. split; [|auto].
  intros Hin. apply Hk. clear -Hin.
  induction m as [|[k0 v0] m IH]; simpl in *; [done|].
  destruct (decide (k = k0)); simpl in *.
  - apply list_elem_of_further. auto.
  - apply elem_of_cons in Hin as [->|Hin]; [apply list_elem_of_here|].
    apply list_elem_of_further. auto.
Qed.

Lemma Map_get_set k k' v m :
  Map_get k' (Map_set k v m) = if decide (k = k') then Some v else Map_get k' m.
Proof.
  destruct (decide (k = k')) as [->|Hne].
  - apply Map_get_set_eq.
  - by apply Map_get_set_ne.
Qed.

Lemma Map_get_delete k k' m :
  Map_get k' (Map_delete k m) = if decide (k = k') then None else Map_get k' m.
Proof.
  destruct (decide (k = k')) as [->|Hne].
  - apply Map_get_delete_eq.
  - by apply Map_get_delete_ne.
Qed.
End JsMapKeys.

Lemma conversations_registered cid ts st :
  conversations (registered cid ts st) =
    match Map_get cid (conversations st) with
    | None => Map_set cid (defaultConversation cid) (conversations st)
    | Some _ => conversations st
    end.
Proof. unfold registered. simpl. by destruct (Map_get cid (conversations st)). Qed.

Lemma blackListedUsers_registered cid ts st :
  blackListedUsers (registered cid ts st) = blackListedUsers st.
Proof. unfold registered. simpl. by destruct (Map_get cid (conversations st)). Qed.

Lemma current_id cid st : Store_ok st → Conversation.id (current cid st) = cid.
Proof.
  intros Hok. unfold current.
  destruct (Map_get cid (conversations st)) eqn:Hget; simpl; [|done].
  by eapply ok_id.
Qed.

Lemma handleEvent_ok event st : Store_ok st → Store_ok (handleEvent event st).
Proof.
  intros Hok. destruct (handleEvent_cases event st) as [->|(ts & cid & Hacc)]; [done|].
  destruct (dispatch (type event) cid (data event) (current cid st) (registered cid ts st))
    as [[c' st']|] eqn:Hd.
  - destruct (handleEvent_known _ _ _ _ _ _ Hacc Hd) as (-> & _ & _).
    destruct (dispatch_frame _ _ _ _ _ _ _ Hd) as (Hconv & _ & Hbl & Hid).
    destruct Hacc as (Hts%truthy_number_Some & _).
    assert (NoDup (Map_keys (conversations st'))) as Hnd.
    { rewrite Hconv, conversations_registered.
      destruct (Map_get cid (conversations st)); [apply Hok|].
      apply Map_keys_set_NoDup, Hok. }
    assert (∀ k c, k ≠ cid → Map_get k (conversations st') = Some c →
                   Map_get k (conversations st) = Some c) as Hother.
    { intros k c Hk. rewrite Hconv, conversations_registered.
      destruct (Map_get cid (conversations st)); [done|].
      by rewrite Map_get_set_ne. }
    split; simpl.
    + intros k c. rewrite Map_get_set. case_decide as Hk.
      * intros [= <-]. simpl. rewrite Hid. subst k. by apply current_id.
      * intros Hget. eapply ok_id; [done|]. eapply Hother; [|done]. congruence.
    + intros k c. rewrite Map_get_set. case_decide as Hk.
      * intros [= <-]. simpl. tauto.
      * intros Hget. eapply ok_stamped; [done|]. eapply Hother; [|done]. congruence.
    + by apply Map_keys_set_NoDup.
    + rewrite Hbl, blackListedUsers_registered. apply Hok.
  - apply dispatch_None in Hd. rewrite (handleEvent_unknown _ _ _ _ Hacc Hd).
    destruct (Map_get cid (conversations st)) as [c|] eqn:Hget; [|done].
    destruct (isEmpty c); [|done].
    split; simpl.
    + intros k c0. rewrite Map_get_delete. case_decide; [done|]. apply Hok.
    + intros k c0. rewrite Map_get_delete. case_decide; [done|]. apply Hok.
    + apply Map_keys_delete_NoDup, Hok.
    + apply Hok.
Qed.

Lemma new_Store_ok : Store_ok new_Store.
Proof. split; simpl; try done. apply NoDup_nil_2. Qed.

Lemma reachable_ok st : reachable st → Store_ok st.
Proof. induction 1; [apply new_Store_ok | by apply handleEvent_ok]. Qed.

Lemma reachable_handleEvents events st : reachable st → reachable (handleEvents events st).
Proof.
  revert st. induction events as [|event events IH]; intros st Hst; simpl; [done|].
  apply IH. by constructor.
Qed.

Lemma isEmpty_stamped c : Conversation.lastUpdatedTimestamp c ≠ 0 → isEmpty c = false.
Proof.
  intros Hc. unfold isEmpty. rewrite (bool_decide_eq_false_2 _ Hc).
  by rewrite andb_false_r.
Qed.

Lemma stale_false c cid ts :
  stale (Some c) cid ts = false → Conversation.id c = cid →
  Conversation.lastUpdatedTimestamp c ≤ ts.
Proof.
  unfold stale. intros H Hid. rewrite (bool_decide_eq_true_2 _ Hid) in H. simpl in H.
  apply bool_decide_eq_false in H. lia.
Qed.

(** One call never lowers the watermark of an entry, and never removes an
    entry of a reachable store. *)
Lemma handleEvent_watermark event st k c :
  Store_ok st →
  Map_get k (conversations st) = Some c →
  ∃ c', Map_get k (conversations (handleEvent event st)) = Some c'
        ∧ Conversation.lastUpdatedTimestamp c ≤ Conversation.lastUpdatedTimestamp c'.
Proof.
  intros Hok Hget.
  destruct (handleEvent_cases event st) as [->|(ts & cid & Hacc)]; [by exists c|].
  destruct (dispatch (type event) cid (data event) (current cid st) (registered cid ts st))
    as [[c' st']|] eqn:Hd.
  - destruct (handleEvent_known _ _ _ _ _ _ Hacc Hd) as (-> & _ & _). simpl.
    destruct (dispatch_frame _ _ _ _ _ _ _ Hd) as (Hconv & _).
    rewrite Map_get_set. case_decide as Hk.
    + subst k. eexists; split; [done|]. simpl.
      destruct Hacc as (_ & _ & Hstale & _). rewrite Hget in Hstale.
      apply (stale_false _ _ _ Hstale). by eapply ok_id.
    + exists c. split; [|lia]. rewrite Hconv, conversations_registered.
      destruct (Map_get cid (conversations st)); [done|].
      by rewrite Map_get_set_ne.
  - apply dispatch_None in Hd. rewrite (handleEvent_unknown _ _ _ _ Hacc Hd).
    destruct (Map_get cid (conversations st)) as [c0|] eqn:Hget0; [|by exists c].
    rewrite isEmpty_stamped by (by eapply ok_stamped). by exists c.
Qed.

(** An event of another conversation leaves the entry of this one alone. *)
Lemma handleEvent_conversations_other event st k :
  EventData.conversationId (data event) ≠ Some k →
  Map_get k (conversations (handleEvent event st)) = Map_get k (conversations st).
Proof.
  intros Hk.
  destruct (handleEvent_cases event st) as [->|(ts & cid & Hacc)]; [done|].
  assert (cid ≠ k) as Hne.
  { intros ->. by destruct Hacc as (_ & [? _]%truthy_Some & _). }
  destruct (dispatch (type event) cid (data event) (current cid st) (registered cid ts st))
    as [[c' st']|] eqn:Hd.
  - destruct (handleEvent_known _ _ _ _ _ _ Hacc Hd) as (-> & _ & _). simpl.
    destruct (dispatch_frame _ _ _ _ _ _ _ Hd) as (-> & _).
    rewrite Map_get_set_ne, conversations_registered by done.
    destruct (Map_get cid (conversations st)); [done|]. by rewrite Map_get_set_ne.
  - apply dispatch_None in Hd. rewrite (handleEvent_unknown _ _ _ _ Hacc Hd).
    destruct (Map_get cid (conversations st)) as [c|]; [|done].
    destruct (isEmpty c); [|done]. simpl. by rewrite Map_get_delete_ne.
Qed.

Lemma handleEvents_conversations_other events st k :
  (∀ e, e ∈ events → EventData.conversationId (data e) ≠ Some k) →
  Map_get k (conversations (handleEvents events st)) = Map_get k (conversations st).
Proof.
  revert st. induction events as [|event events IH]; intros st Hother; simpl; [done|].
  rewrite IH by (intros e He; apply Hother; by apply list_elem_of_further).
  apply handleEvent_conversations_other, Hother, list_elem_of_here.
Qed.

(** ** Idempotence *)

(** C2. Applying [handleEvent] to the same event twice in a row gives the
    store that applying it once gives: for every event (any kind, also an
    unknown one, any payload, also one without timestamp or conversation
    id) and for every store, reachable or not. *)
Theorem handleEvent_idempotent event st :
  handleEvent event (handleEvent event st) = handleEvent event st.
Proof.
  destruct (handleEvent_cases event st) as [Hsame|(ts & cid & Hacc)].
  { by rewrite !Hsame. }
  destruct (dispatch (type event) cid (data event) (current cid st) (registered cid ts st))
    as [[c' st']|] eqn:Hd.
  - destruct (handleEvent_known _ _ _ _ _ _ Hacc Hd) as (_ & _ & Hin).
    destruct Hacc as (Hts & Hcid & _).
    by apply (handleEvent_recorded _ _ ts cid).
  - apply dispatch_None in Hd.
    pose proof (handleEvent_unknown _ _ _ _ Hacc Hd) as Hfirst.
    destruct (Map_get cid (conversations st)) as [c|] eqn:Hget.
    + destruct (isEmpty c) eqn:Hempty.
      * rewrite Hfirst.
        assert (accepted event (with_conversations (Map_delete cid (conversations st)) st) ts cid)
          as Hacc'.
        { destruct Hacc as (Hts & Hcid & _ & Hfresh).
          repeat split; try done. simpl. by rewrite Map_get_delete_eq. }
        rewrite (handleEvent_unknown _ _ _ _ Hacc' Hd). simpl.
        by rewrite Map_get_delete_eq.
      * rewrite Hfirst. rewrite (handleEvent_unknown _ _ _ _ Hacc Hd), Hget.
        by rewrite Hempty.
    + rewrite Hfirst. rewrite (handleEvent_unknown _ _ _ _ Hacc Hd). by rewrite Hget.
Qed.

(** ** Ordering *)

Lemma handleEvents_watermark events st k c :
  Store_ok st →
  Map_get k (conversations st) = Some c →
  ∃ c', Map_get k (conversations (handleEvents events st)) = Some c'
        ∧ Conversation.lastUpdatedTimestamp c ≤ Conversation.lastUpdatedTimestamp c'.
Proof.
  revert st c. induction events as [|event events IH]; intros st c Hok Hget; simpl.
  - by exists c.
  - destruct (handleEvent_watermark event st k c Hok Hget) as (c1 & Hget1 & Hle1).
    destruct (IH _ c1 (handleEvent_ok event st Hok) Hget1) as (c2 & Hget2 & Hle2).
    exists c2. split; [done|lia].
Qed.

(** An event older than the watermark of its conversation is dropped. *)
Lemma handleEvent_stale event st ts cid c :
  Store_ok st →
  EventData.timestamp (data event) = Some ts →
  EventData.conversationId (data event) = Some cid →
  Map_get cid (conversations st) = Some c →
  ts < Conversation.lastUpdatedTimestamp c →
  handleEvent event st = st.
Proof.
  intros Hok Hts Hcid Hget Hlt. apply handleEvent_rejected.
  intros ts' cid' (Hts' & Hcid' & Hstale & _).
  apply truthy_number_Some in Hts' as [Hts' _].
  apply truthy_Some in Hcid' as [Hcid' _].
  assert (ts' = ts) as -> by congruence. assert (cid' = cid) as -> by congruence.
  rewrite Hget in Hstale. apply stale_false in Hstale; [lia|]. by eapply ok_id.
Qed.

(** C3. In a reachable store, whatever events are applied next, an entry
    stays in the registry and its [lastUpdatedTimestamp] does not decrease;
    and an event whose timestamp is strictly below the
    [lastUpdatedTimestamp] of its conversation leaves the whole store
    (registry, dedup guard, typing sets, pending bodies) as it was. *)
Theorem ordering_monotonicity st :
  reachable st →
  (∀ events conversationId c,
     Map_get conversationId (conversations st) = Some c →
     ∃ c', Map_get conversationId (conversations (handleEvents events st)) = Some c'
           ∧ Conversation.lastUpdatedTimestamp c ≤ Conversation.lastUpdatedTimestamp c')
  ∧ (∀ event timestamp conversationId c,
       EventData.timestamp (data event) = Some timestamp →
       EventData.conversationId (data event) = Some conversationId →
       Map_get conversationId (conversations st) = Some c →
       timestamp < Conversation.lastUpdatedTimestamp c →
       handleEvent event st = st).
Proof.
  intros Hok%reachable_ok. split.
  - intros events cid c. by apply handleEvents_watermark.
  - intros event ts cid c. by apply handleEvent_stale.
Qed.

(** ** The read path *)

Section JsSortFacts.
Context {A : Type} (cmp : A → A → Z).
Hypothesis cmp_total : ∀ x y, cmp x y ≤ 0 ∨ cmp y x ≤ 0.
Hypothesis cmp_trans : ∀ x y z, cmp x y ≤ 0 → cmp y z ≤ 0 → cmp x z ≤ 0.

Lemma sort_insert_Permutation x l : sort_insert cmp x l ≡ₚ x :: l.
Proof.
  induction l as [|y l IH]; simpl; [done|].
  case_decide; [done|]. rewrite IH. apply Permutation_swap.
Qed.

Lemma sort_Permutation l : sort cmp l ≡ₚ l.
Proof.
  induction l as [|x l IH]; simpl; [done|].
  by rewrite sort_insert_Permutation, IH.
Qed.

Lemma sort_insert_StronglySorted x l :
  StronglySorted (λ a b, cmp a b ≤ 0) l →
  StronglySorted (λ a b, cmp a b ≤ 0) (sort_insert cmp x l).
Proof.
  induction 1 as [|y l Hl IH Hy]; simpl.
  - repeat constructor.
  - case_decide as Hxy.
    + constructor; [by constructor|]. constructor; [done|].
      eapply Forall_impl; [apply Hy|]. intros z Hz. by eapply cmp_trans.
    + constructor; [done|]. rewrite sort_insert_Permutation.
      constructor; [|done]. destruct (cmp_total x y); [done|lia].
Qed.

Lemma sort_StronglySorted l : StronglySorted (λ a b, cmp a b ≤ 0) (sort cmp l).
Proof.
  induction l as [|x l IH]; simpl; [constructor|].
  by apply sort_insert_StronglySorted.
Qed.
End JsSortFacts.

Lemma StronglySorted_weaken {A : Type} (R S : A → A → Prop) l :
  (∀ x y, R x y → S x y) → StronglySorted R l → StronglySorted S l.
Proof.
  intros HRS. induction 1 as [|x l Hl IH Hx]; constructor; [done|].
  eapply Forall_impl; [apply Hx|]. auto.
Qed.

Lemma includes_blocked st c :
  Store_ok st →
  negb (includes (js_or (Conversation.assignedUser c) "") (blackListedUsers st))
  ↔ ¬ blocked st c.
Proof.
  intros Hok. unfold blocked, includes. rewrite (ok_blackList _ Hok).
  rewrite negb_True, bool_decide_spec.
  destruct (Conversation.assignedUser c) as [[|a u]|]; simpl; [done..|].
  split; [tauto|]. intros _. by intros [=]%list_elem_of_singleton.
Qed.

Lemma elem_of_Map_values st c :
  Store_ok st →
  c ∈ Map_values (conversations st) ↔ Map_get (Conversation.id c) (conversations st) = Some c.
Proof.
  intros Hok. unfold Map_values. split.
  - intros ([k c'] & -> & Hin)%list_elem_of_fmap. simpl.
    apply elem_of_Map_get in Hin; [|apply Hok].
    by rewrite (ok_id _ Hok _ _ Hin).
  - intros Hget%Map_get_elem_of. by apply (list_elem_of_fmap_2 snd) in Hget.
Qed.

Lemma getConversations_Permutation st :
  Store_ok st →
  (getConversations st).1 ≡ₚ filter (λ c, ¬ blocked st c) (Map_values (conversations st)).
Proof.
  intros Hok. unfold getConversations. simpl. rewrite sort_Permutation.
  erewrite list_filter_iff; [done|]. intros c. by apply includes_blocked.
Qed.

Lemma getConversations_elem_of st c :
  Store_ok st →
  c ∈ (getConversations st).1
  ↔ Map_get (Conversation.id c) (conversations st) = Some c ∧ ¬ blocked st c.
Proof.
  intros Hok.
  rewrite (getConversations_Permutation _ Hok), list_elem_of_filter,
    (elem_of_Map_values _ _ Hok).
  tauto.
Qed.

(** C7. On a reachable store [getConversations] returns the registry
    entries whose [assignedUser] is not on the block-list, each as often as
    the registry holds it (once), ordered by [lastUpdatedTimestamp] from
    the latest to the earliest, and the store after the call is the store
    before it. *)
Theorem getConversations_filtered_sorted st :
  reachable st →
  (getConversations st).2 = st
  ∧ (getConversations st).1
      ≡ₚ filter (λ c, ¬ blocked st c) (Map_values (conversations st))
  ∧ StronglySorted
      (λ a b, Conversation.lastUpdatedTimestamp b ≤ Conversation.lastUpdatedTimestamp a)
      (getConversations st).1
  ∧ ∀ c, c ∈ (getConversations st).1
         ↔ Map_get (Conversation.id c) (conversations st) = Some c ∧ ¬ blocked st c.
Proof.
  intros Hok%reachable_ok.
  split; [done|]. split; [by apply getConversations_Permutation|]. split.
  - unfold getConversations. simpl.
    eapply StronglySorted_weaken;
      [|apply (sort_StronglySorted
                 (λ a b, Conversation.lastUpdatedTimestamp b - Conversation.lastUpdatedTimestamp a))].
    + intros a b. simpl. lia.
    + intros x y. lia.
    + intros x y z. lia.
  - intros c. by apply getConversations_elem_of.
Qed.

(** ** The arms of the [switch] *)

Lemma dispatch_MessageReceived cid d c st :
  dispatch EventType.MessageReceived cid d c st =
    let c1 :=
      Conversation.with_messageCount (Conversation.messageCount c + 1)
        (Conversation.with_subject (js_or (EventData.subject d) (Conversation.subject c)) c) in
    if nobodyTyping cid st
    then Some (Conversation.with_blurb
                 (js_or (slice0 256 <$> EventData.body d) (Conversation.blurb c)) c1, st)
    else Some (c1, with_lastBody (<[cid := js_or (EventData.body d) ""]> (lastBody st)) st).
Proof. unfold dispatch. by rewrite decide_True. Qed.

Lemma dispatch_Assigned cid d c st :
  dispatch EventType.Assigned cid d c st =
    Some (Conversation.with_assignedUser (truthy (EventData.user d)) c, st).
Proof. unfold dispatch. rewrite decide_False by done. by rewrite decide_True. Qed.

Lemma dispatch_Unassigned cid d c st :
  dispatch EventType.Unassigned cid d c st =
    Some (Conversation.with_assignedUser None c, st).
Proof. unfold dispatch. rewrite !decide_False by done. by rewrite decide_True. Qed.

Lemma dispatch_TypingStarted cid d c st :
  dispatch EventType.TypingStarted cid d c st =
    Some (Conversation.with_blurb
            (addAndgetBlurbForTypingUsers cid (EventData.user d) st).1 c,
          (addAndgetBlurbForTypingUsers cid (EventData.user d) st).2).
Proof.
  unfold dispatch. rewrite !decide_False by done. rewrite decide_True by done.
  by destruct (addAndgetBlurbForTypingUsers cid (EventData.user d) st).
Qed.

Lemma dispatch_TypingStopped cid d c st :
  dispatch EventType.TypingStopped cid d c st =
    Some (Conversation.with_blurb
            (deleteBlurbForTypingUsers cid c (EventData.user d) st).1 c,
          (deleteBlurbForTypingUsers cid c (EventData.user d) st).2).
Proof.
  unfold dispatch. rewrite !decide_False by done. rewrite decide_True by done.
  by destruct (deleteBlurbForTypingUsers cid c (EventData.user d) st).
Qed.

Lemma typingUsers_registered cid ts st :
  typingUsers (registered cid ts st) = typingUsers st.
Proof. unfold registered. simpl. by destruct (Map_get cid (conversations st)). Qed.

Lemma lastBody_registered cid ts st :
  lastBody (registered cid ts st) = lastBody st.
Proof. unfold registered. simpl. by destruct (Map_get cid (conversations st)). Qed.

Lemma nobodyTyping_registered cid ts st :
  nobodyTyping cid (registered cid ts st) = nobodyTyping cid st.
Proof. unfold nobodyTyping. by rewrite typingUsers_registered. Qed.

(** [slice] keeps a prefix, of the requested length when the string is
    long enough. *)
Lemma slice0_length n s : String.length (slice0 n s) = (n `min` String.length s)%nat.
Proof.
  revert s. induction n as [|n IH]; intros [|a s]; simpl; try done.
  by rewrite IH.
Qed.

Lemma slice0_prefix n s : ∃ rest, s = slice0 n s +:+ rest.
Proof.
  revert s. induction n as [|n IH]; intros s.
  - by exists s.
  - destruct s as [|a s]; simpl; [by exists EmptyString|].
    destruct (IH s) as [rest Hrest]. exists rest.
    change (String a s = String a (slice0 n s +:+ rest)). by rewrite <-Hrest.
Qed.

Lemma js_or_Some s d : s ≠ EmptyString → js_or (Some s) d = s.
Proof. by destruct s. Qed.

Lemma js_or_falsy x d : x = None ∨ x = Some EmptyString → js_or x d = d.
Proof. by intros [->| ->]. Qed.

(** ** Messages *)

(** C8. An accepted [messageReceived] event whose body has 256 characters
    or more, for a conversation in which nobody is typing, sets the blurb
    to the first 256 characters of the body: the blurb is [slice(0, 256)] of
    the body, a prefix of it of length 256.  [getConversations] hands out
    the entry as the registry holds it, so the blurb read back is the
    same string. *)
Theorem messageReceived_truncation event st timestamp conversationId b :
  reachable st →
  accepted event st timestamp conversationId →
  type event = EventType.MessageReceived →
  EventData.body (data event) = Some b →
  (256 ≤ String.length b)%nat →
  nobodyTyping conversationId st = true →
  ∃ c, Map_get conversationId (conversations (handleEvent event st)) = Some c
       ∧ Conversation.blurb c = slice0 256 b
       ∧ String.length (Conversation.blurb c) = 256%nat
       ∧ (∃ rest, b = Conversation.blurb c +:+ rest)
       ∧ (∀ c', c' ∈ (getConversations (handleEvent event st)).1 →
                Conversation.id c' = conversationId → c' = c)
       ∧ (¬ blocked (handleEvent event st) c →
          c ∈ (getConversations (handleEvent event st)).1).
Proof.
  intros Hreach Hacc Hty Hbody Hlen Htyping.
  pose proof (reachable_ok _ (reachable_handleEvent event st Hreach)) as Hok'.
  pose proof (reachable_ok _ Hreach) as Hok.
  assert (String.length (slice0 256 b) = 256%nat) as Hlen'.
  { rewrite slice0_length. lia. }
  assert (slice0 256 b ≠ EmptyString) as Hne.
  { intros Heq. by rewrite Heq in Hlen'. }
  pose proof (dispatch_MessageReceived conversationId (data event)
                (current conversationId st) (registered conversationId timestamp st)) as Hd.
  rewrite nobodyTyping_registered, Htyping, Hbody, <-Hty in Hd.
  change (slice0 256 <$> Some b) with (Some (slice0 256 b)) in Hd.
  rewrite (js_or_Some _ _ Hne) in Hd. cbv zeta in Hd.
  destruct (handleEvent_known _ _ _ _ _ _ Hacc Hd) as (_ & Hget & _).
  eexists. split; [exact Hget|].
  split; [done|]. split; [done|]. split; [apply slice0_prefix|]. split.
  - intros c' Hin Hid. apply (getConversations_elem_of _ _ Hok') in Hin as [Hin _].
    rewrite Hid, Hget in Hin. by injection Hin.
  - intros Hblocked. apply (getConversations_elem_of _ _ Hok'). split; [|done].
    cbn [Conversation.id Conversation.with_lastUpdatedTimestamp Conversation.with_blurb
         Conversation.with_messageCount Conversation.with_subject].
    by rewrite (current_id _ _ Hok).
Qed.

(** C10. For an accepted [messageReceived] event, a body that is the
    empty string, like a body that is absent, leaves the blurb of the
    conversation as it was when nobody is typing, and a subject that is the
    empty string, like a subject that is absent, leaves the subject as it
    was.  "As it was" is the field of the entry the event found, or the
    default [""] when the event creates the entry. *)
Theorem messageReceived_empty_is_absent event st timestamp conversationId :
  accepted event st timestamp conversationId →
  type event = EventType.MessageReceived →
  ∃ c, Map_get conversationId (conversations (handleEvent event st)) = Some c
       ∧ (EventData.body (data event) = None ∨ EventData.body (data event) = Some EmptyString →
          nobodyTyping conversationId st = true →
          Conversation.blurb c = Conversation.blurb (current conversationId st))
       ∧ (EventData.subject (data event) = None
          ∨ EventData.subject (data event) = Some EmptyString →
          Conversation.subject c = Conversation.subject (current conversationId st)).
Proof.
  intros Hacc Hty.
  pose proof (dispatch_MessageReceived conversationId (data event)
                (current conversationId st) (registered conversationId timestamp st)) as Hd.
  rewrite nobodyTyping_registered, <-Hty in Hd. cbv zeta in Hd.
  destruct (nobodyTyping conversationId st) eqn:Htyping.
  - destruct (handleEvent_known _ _ _ _ _ _ Hacc Hd) as (_ & Hget & _).
    eexists. split; [exact Hget|]. simpl. split.
    + intros Hbody _. apply js_or_falsy. by destruct Hbody as [->| ->]; [left|right].
    + intros Hsubject. by apply js_or_falsy.
  - destruct (handleEvent_known _ _ _ _ _ _ Hacc Hd) as (_ & Hget & _).
    eexists. split; [exact Hget|]. simpl. split; [done|].
    intros Hsubject. by apply js_or_falsy.
Qed.

(** ** Assignment *)

(** C9, amended. An accepted [assigned] event sets [assignedUser] to
    [user || null]: to the incoming user when the user field is present
    and not the empty string, and to [null] when the field is absent or is
    the empty string. *)
Theorem assigned_sets_user event st timestamp conversationId :
  accepted event st timestamp conversationId →
  type event = EventType.Assigned →
  ∃ c, Map_get conversationId (conversations (handleEvent event st)) = Some c
       ∧ (∀ u, EventData.user (data event) = Some u → u ≠ EmptyString →
               Conversation.assignedUser c = Some u)
       ∧ (Conversation.assignedUser c = None
          ↔ EventData.user (data event) = None
            ∨ EventData.user (data event) = Some EmptyString).
Proof.
  intros Hacc Hty.
  pose proof (dispatch_Assigned conversationId (data event)
                (current conversationId st) (registered conversationId timestamp st)) as Hd.
  rewrite <-Hty in Hd.
  destruct (handleEvent_known _ _ _ _ _ _ Hacc Hd) as (_ & Hget & _).
  eexists. split; [exact Hget|]. simpl.
  destruct (EventData.user (data event)) as [[|a u]|]; simpl.
  - split; [by intros u [= <-]|]. split; [by right | done].
  - split; [by intros u' [= <-]|]. split; [done | by intros [|]].
  - split; [done|]. split; [by left | done].
Qed.

(** C9 as stated fails: an [assigned] event whose user field is present
    and holds the empty string is accepted by a new store, and the entry
    it creates has [assignedUser] [null], not the incoming user. *)
Lemma assigned_empty_user_counterexample :
  let event := event_of EventType.Assigned 1 "c1" (Some EmptyString) None None in
  accepted event new_Store 1 "c1"
  ∧ EventData.user (data event) = Some EmptyString
  ∧ ∃ c, Map_get "c1" (conversations (handleEvent event new_Store)) = Some c
         ∧ Conversation.assignedUser c = None
         ∧ Conversation.assignedUser c ≠ EventData.user (data event).
Proof.
  simpl. split.
  - repeat split. apply not_elem_of_empty.
  - split; [done|]. eexists. split; [vm_compute; reflexivity|]. by simpl.
Qed.

(** ** Typing *)

Lemma addAndgetBlurbForTypingUsers_typingUsers cid user st :
  typingUsers (addAndgetBlurbForTypingUsers cid user st).2 =
    match truthy user with
    | Some u => <[cid := Set_add u (default [] (typingUsers st !! cid))]> (typingUsers st)
    | None => typingUsers st
    end.
Proof. unfold addAndgetBlurbForTypingUsers. by destruct (truthy user). Qed.

Lemma deleteBlurbForTypingUsers_typingUsers cid c user st :
  typingUsers (deleteBlurbForTypingUsers cid c user st).2 =
    match typingUsers st !! cid with
    | Some found =>
        match without_user user found with
        | [] => delete cid (typingUsers st)
        | rest => <[cid := rest]> (typingUsers st)
        end
    | None => typingUsers st
    end.
Proof.
  unfold deleteBlurbForTypingUsers, without_user.
  destruct (typingUsers st !! cid) as [found|] eqn:Hfound; [|done].
  destruct (truthy user) as [u|]; simpl.
  - rewrite lookup_insert_eq. destruct (Set_delete u found); simpl; [|done].
    by rewrite delete_insert_eq.
  - rewrite Hfound. destruct found; simpl; [done|]. by rewrite insert_id.
Qed.

Lemma deleteBlurbForTypingUsers_blurb cid c user st :
  (deleteBlurbForTypingUsers cid c user st).1 =
    match typingUsers st !! cid with
    | Some found =>
        match without_user user found with
        | [] => js_or (lastBody st !! cid) ""
        | rest => replying rest
        end
    | None => EmptyString
    end.
Proof.
  unfold deleteBlurbForTypingUsers, without_user.
  destruct (typingUsers st !! cid) as [found|] eqn:Hfound; [|done].
  destruct (truthy user) as [u|]; simpl.
  - rewrite lookup_insert_eq. by destruct (Set_delete u found).
  - rewrite Hfound. by destruct found.
Qed.

Lemma knownTypes_cases ty :
  ty ∈ knownTypes →
  ty = EventType.MessageReceived ∨ ty = EventType.Assigned ∨ ty = EventType.Unassigned
  ∨ ty = EventType.TypingStarted ∨ ty = EventType.TypingStopped.
Proof.
  unfold knownTypes. rewrite !elem_of_cons, elem_of_nil. tauto.
Qed.

Lemma dispatch_known ty cid d c st :
  ty ∈ knownTypes → is_Some (dispatch ty cid d c st).
Proof.
  intros Hty. destruct (dispatch ty cid d c st) eqn:Hd; [done|].
  by apply dispatch_None in Hd.
Qed.

Lemma lastBody_with_conversations x st : lastBody (with_conversations x st) = lastBody st.
Proof. done. Qed.

Lemma typingUsers_with_conversations x st :
  typingUsers (with_conversations x st) = typingUsers st.
Proof. done. Qed.

Lemma typingUsers_with_lastBody x st : typingUsers (with_lastBody x st) = typingUsers st.
Proof. done. Qed.

(** The typing sets and the pending bodies after one call. *)
Lemma handleEvent_typing event st :
  (typingUsers (handleEvent event st) = typingUsers st
   ∧ (lastBody (handleEvent event st) = lastBody st
      ∨ ∃ timestamp conversationId,
          accepted event st timestamp conversationId
          ∧ type event = EventType.MessageReceived
          ∧ nobodyTyping conversationId st = false
          ∧ lastBody (handleEvent event st)
            = <[conversationId := js_or (EventData.body (data event)) ""]> (lastBody st)))
  ∨ (lastBody (handleEvent event st) = lastBody st
     ∧ ∃ timestamp conversationId,
         accepted event st timestamp conversationId
         ∧ ((type event = EventType.TypingStarted
             ∧ typingUsers (handleEvent event st)
               = typingUsers
                   (addAndgetBlurbForTypingUsers conversationId (EventData.user (data event)) st).2)
            ∨ (type event = EventType.TypingStopped
               ∧ typingUsers (handleEvent event st)
                 = typingUsers
                     (deleteBlurbForTypingUsers conversationId (current conversationId st)
         (EventData.user (data event)) st).2))).
Proof.
  destruct (handleEvent_cases event st) as [->|(ts & cid & Hacc)]; [by left; split; [|left]|].
  destruct (decide (type event ∈ knownTypes)) as [Hty|Hty].
  2: { left. rewrite (handleEvent_unknown _ _ _ _ Hacc Hty).
       destruct (Map_get cid (conversations st)) as [c|]; [|by split; [|left]].
       destruct (isEmpty c); by split; [|left]. }
  rewrite (handleEvent_accepted _ _ _ _ Hacc).
  apply knownTypes_cases in Hty as [Hty|[Hty|[Hty|[Hty|Hty]]]]; rewrite Hty.
  - rewrite dispatch_MessageReceived, nobodyTyping_registered. cbv zeta.
    destruct (nobodyTyping cid st) eqn:Htyping; simpl.
    + left. rewrite typingUsers_registered, lastBody_registered. by split; [|left].
    + left. rewrite typingUsers_registered, lastBody_registered. split; [done|].
      right. by exists ts, cid.
  - rewrite dispatch_Assigned. simpl. left.
    rewrite typingUsers_registered, lastBody_registered. by split; [|left].
  - rewrite dispatch_Unassigned. simpl. left.
    rewrite typingUsers_registered, lastBody_registered. by split; [|left].
  - rewrite dispatch_TypingStarted. right.
    rewrite lastBody_with_conversations, typingUsers_with_conversations.
    destruct (addAndgetBlurbForTypingUsers_frame cid (EventData.user (data event))
                (registered cid ts st)) as (_ & _ & _ & ->).
    rewrite lastBody_registered. split; [done|]. exists ts, cid. split; [done|]. left.
    split; [done|]. by rewrite !addAndgetBlurbForTypingUsers_typingUsers, typingUsers_registered.
  - rewrite dispatch_TypingStopped. right.
    rewrite lastBody_with_conversations, typingUsers_with_conversations.
    destruct (deleteBlurbForTypingUsers_frame cid (current cid st) (EventData.user (data event))
                (registered cid ts st)) as (_ & _ & _ & ->).
    rewrite lastBody_registered. split; [done|]. exists ts, cid. split; [done|]. right.
    split; [done|]. by rewrite !deleteBlurbForTypingUsers_typingUsers, typingUsers_registered.
Qed.

Lemma Set_add_elem_of x u l : x ∈ Set_add u l ↔ x = u ∨ x ∈ l.
Proof.
  unfold Set_add. case_decide as Hu.
  - split; [tauto|]. by intros [->|].
  - rewrite elem_of_app, list_elem_of_singleton. tauto.
Qed.

Lemma Set_add_NoDup u l : NoDup l → NoDup (Set_add u l).
Proof.
  intros Hl. unfold Set_add. case_decide as Hu; [done|].
  apply NoDup_app. split; [done|]. split; [|apply NoDup_singleton].
  by intros x Hx ->%list_elem_of_singleton.
Qed.

Lemma Set_delete_elem_of x u l : x ∈ Set_delete u l ↔ x ≠ u ∧ x ∈ l.
Proof. unfold Set_delete. by rewrite list_elem_of_filter. Qed.

Lemma without_user_elem_of user found x :
  EmptyString ∉ found →
  x ∈ without_user user found ↔ (x ∈ found ∧ user ≠ Some x).
Proof.
  intros Hfound. unfold without_user.
  destruct (truthy user) as [u|] eqn:Hu.
  - apply truthy_Some in Hu as [-> _]. rewrite Set_delete_elem_of.
    split; intros [? ?]; split; congruence.
  - split; [|tauto]. intros Hx. split; [done|]. intros ->.
    destruct x; [done|discriminate].
Qed.

Lemma handleEvent_Typing_ok event st : Typing_ok st → Typing_ok (handleEvent event st).
Proof.
  intros Hok.
  destruct (handleEvent_typing event st)
    as [[Hsame _]|(_ & ts & cid & Hacc & [[_ Hstart]|[_ Hstop]])].
  - unfold Typing_ok. by rewrite Hsame.
  - unfold Typing_ok. rewrite Hstart, addAndgetBlurbForTypingUsers_typingUsers.
    destruct (truthy _) as [u|] eqn:Hu; [|done].
    apply truthy_Some in Hu as [_ Hu].
    intros k l. rewrite lookup_insert. case_decide; [|apply Hok].
    intros [= <-].
    assert ((EmptyString ∉ default [] (typingUsers st !! cid))
            ∧ NoDup (default [] (typingUsers st !! cid))) as [Hno Hnd].
    { destruct (typingUsers st !! cid) as [found|] eqn:Hfound; simpl.
      - by destruct (Hok _ _ Hfound) as (_ & ? & ?).
      - split; [apply not_elem_of_nil | apply NoDup_nil_2]. }
    split; [|split].
    + intros Hnil. assert (u ∈ Set_add u (default [] (typingUsers st !! cid))) as Hin
        by (apply Set_add_elem_of; by left).
      rewrite Hnil in Hin. by apply elem_of_nil in Hin.
    + rewrite Set_add_elem_of. intros [?|?]; congruence.
    + by apply Set_add_NoDup.
  - unfold Typing_ok. rewrite Hstop, deleteBlurbForTypingUsers_typingUsers.
    destruct (typingUsers st !! cid) as [found|] eqn:Hfound; [|done].
    destruct (Hok _ _ Hfound) as (_ & Hno & Hnd).
    destruct (without_user _ found) as [|x rest] eqn:Hrest.
    + intros k l. rewrite lookup_delete. case_decide; [done|apply Hok].
    + intros k l. rewrite lookup_insert. case_decide; [|apply Hok].
      intros [= <-]. split; [done|]. rewrite <-Hrest. split.
      * rewrite without_user_elem_of by done. tauto.
      * unfold without_user. destruct (truthy _); [|done]. by apply NoDup_filter.
Qed.

Lemma reachable_Typing_ok st : reachable st → Typing_ok st.
Proof.
  induction 1; [|by apply handleEvent_Typing_ok].
  intros k l. simpl. by rewrite lookup_empty.
Qed.

Lemma js_or_empty x : js_or x "" = default EmptyString x.
Proof. by destruct x as [[|a s]|]. Qed.

(** An accepted [typingStopped] event. *)
Lemma handleEvent_TypingStopped event st timestamp conversationId :
  accepted event st timestamp conversationId →
  type event = EventType.TypingStopped →
  (∃ c, Map_get conversationId (conversations (handleEvent event st)) = Some c
        ∧ Conversation.blurb c
          = (deleteBlurbForTypingUsers conversationId (current conversationId st)
         (EventData.user (data event)) st).1)
  ∧ typingUsers (handleEvent event st)
    = typingUsers (deleteBlurbForTypingUsers conversationId (current conversationId st)
         (EventData.user (data event)) st).2
  ∧ lastBody (handleEvent event st) = lastBody st.
Proof.
  intros Hacc Hty.
  pose proof (dispatch_TypingStopped conversationId (data event)
                (current conversationId st) (registered conversationId timestamp st)) as Hd.
  rewrite <-Hty in Hd.
  destruct (handleEvent_known _ _ _ _ _ _ Hacc Hd) as (Heq & Hget & _).
  split; [|split].
  - eexists. split; [exact Hget|].
    cbn [Conversation.blurb Conversation.with_lastUpdatedTimestamp Conversation.with_blurb].
    by rewrite !deleteBlurbForTypingUsers_blurb, typingUsers_registered, lastBody_registered.
  - rewrite Heq, typingUsers_with_conversations.
    by rewrite !deleteBlurbForTypingUsers_typingUsers, typingUsers_registered.
  - rewrite Heq, lastBody_with_conversations.
    destruct (deleteBlurbForTypingUsers_frame conversationId (current conversationId st)
                (EventData.user (data event))
                (registered conversationId timestamp st)) as (_ & _ & _ & ->).
    apply lastBody_registered.
Qed.

(** An accepted [messageReceived] event while somebody is typing. *)
Lemma handleEvent_MessageReceived_typing event st timestamp conversationId :
  accepted event st timestamp conversationId →
  type event = EventType.MessageReceived →
  nobodyTyping conversationId st = false →
  (∃ c, Map_get conversationId (conversations (handleEvent event st)) = Some c
        ∧ Conversation.blurb c = Conversation.blurb (current conversationId st))
  ∧ typingUsers (handleEvent event st) = typingUsers st
  ∧ lastBody (handleEvent event st)
    = <[conversationId := js_or (EventData.body (data event)) ""]> (lastBody st).
Proof.
  intros Hacc Hty Htyping.
  pose proof (dispatch_MessageReceived conversationId (data event)
                (current conversationId st) (registered conversationId timestamp st)) as Hd.
  rewrite nobodyTyping_registered, Htyping, <-Hty in Hd. cbv zeta in Hd.
  destruct (handleEvent_known _ _ _ _ _ _ Hacc Hd) as (Heq & Hget & _).
  split; [|split].
  - eexists. split; [exact Hget|]. done.
  - rewrite Heq. simpl. apply typingUsers_registered.
  - rewrite Heq. simpl. by rewrite lastBody_registered.
Qed.

(** The pending body of a conversation is written only by a
    [messageReceived] event of the conversation that is accepted while
    somebody is typing in it. *)
Lemma handleEvents_lastBody events st cid :
  stashedBetween cid events st = false →
  lastBody (handleEvents events st) !! cid = lastBody st !! cid.
Proof.
  revert st. induction events as [|event events IH]; intros st Hnone; simpl; [done|].
  simpl in Hnone. apply orb_false_elim in Hnone as [Hhere Hlater].
  rewrite IH by done.
  destruct (handleEvent_typing event st)
    as [[_ [->|(ts & cid' & Hacc & Hty & Htyping & ->)]]|[-> _]]; [done| |done].
  destruct (decide (cid' = cid)) as [->|Hne]; [|by rewrite lookup_insert_ne].
  apply admitted_Some in Hacc.
  rewrite (bool_decide_eq_true_2 _ Hty), Hacc, Htyping in Hhere.
  by rewrite (bool_decide_eq_true_2 (cid = cid)) in Hhere.
Qed.

(** C4, amended. While the typing set of a conversation is not empty, an
    accepted [messageReceived] event leaves the blurb of the conversation
    as it was.  When afterwards an accepted [typingStopped] event empties
    the typing set, and the message is the last [messageReceived] event of
    the conversation that was accepted while its typing set was not empty
    (whatever other events, duplicates and stale messages included, were
    applied in between), the blurb becomes the body of that message if the
    body has at most 256 characters, the empty string if the message has no
    body. *)
Theorem typing_precedence_last_message message st timestamp conversationId :
  accepted message st timestamp conversationId →
  type message = EventType.MessageReceived →
  nobodyTyping conversationId st = false →
  (∃ c, Map_get conversationId (conversations (handleEvent message st)) = Some c
        ∧ Conversation.blurb c = Conversation.blurb (current conversationId st))
  ∧ ∀ between stopped timestamp',
      let st' := handleEvents between (handleEvent message st) in
      stashedBetween conversationId between (handleEvent message st) = false →
      accepted stopped st' timestamp' conversationId →
      type stopped = EventType.TypingStopped →
      nobodyTyping conversationId st' = false →
      nobodyTyping conversationId (handleEvent stopped st') = true →
      (String.length (default EmptyString (EventData.body (data message))) ≤ 256)%nat →
      ∃ c, Map_get conversationId (conversations (handleEvent stopped st')) = Some c
           ∧ Conversation.blurb c = default EmptyString (EventData.body (data message)).
Proof.
  intros Hacc Hty Htyping.
  destruct (handleEvent_MessageReceived_typing _ _ _ _ Hacc Hty Htyping)
    as (Hblurb & _ & Hbody).
  split; [done|]. intros between stopped ts' st' Hbetween Hacc' Hty' Hbefore Hafter _.
  destruct (handleEvent_TypingStopped _ _ _ _ Hacc' Hty') as ((c & Hget & Hc) & Htu & _).
  exists c. split; [done|]. rewrite Hc, deleteBlurbForTypingUsers_blurb.
  unfold nobodyTyping in Hbefore, Hafter.
  rewrite Htu, deleteBlurbForTypingUsers_typingUsers in Hafter.
  destruct (typingUsers st' !! conversationId) as [found|] eqn:Hfound; [|done].
  destruct (without_user _ found) as [|u rest].
  - unfold st'. rewrite (handleEvents_lastBody _ _ _ Hbetween), Hbody, lookup_insert_eq.
    by rewrite !js_or_empty.
  - by rewrite lookup_insert_eq in Hafter.
Qed.

(** C4 as stated fails when a second message arrives before typing stops.
    A user starts typing, the messages ["first"] and ["second"] are
    accepted while the user is typing, the user stops typing and the typing
    set is empty: the blurb is ["second"], not the body of the message
    ["first"], which arrived during typing as well. *)
Lemma typing_precedence_counterexample :
  let st := handleEvent (event_of EventType.TypingStarted 1 "c1" (Some "u1"%string) None None)
              new_Store in
  let message := event_of EventType.MessageReceived 2 "c1" None None (Some "first"%string) in
  let second := event_of EventType.MessageReceived 3 "c1" None None (Some "second"%string) in
  let stopped := event_of EventType.TypingStopped 4 "c1" (Some "u1"%string) None None in
  let st' := handleEvents [second] (handleEvent message st) in
  accepted message st 2 "c1"
  ∧ nobodyTyping "c1" st = false
  ∧ accepted stopped st' 4 "c1"
  ∧ nobodyTyping "c1" st' = false
  ∧ nobodyTyping "c1" (handleEvent stopped st') = true
  ∧ ∃ c, Map_get "c1" (conversations (handleEvent stopped st')) = Some c
         ∧ Conversation.blurb c = "second"%string
         ∧ Conversation.blurb c ≠ default EmptyString (EventData.body (data message)).
Proof.
  cbv zeta. split; [accepted_by_evaluation|]. split; [by_evaluation|].
  split; [accepted_by_evaluation|]. split; [by_evaluation|]. split; [by_evaluation|].
  eexists. split; [by_evaluation|]. split; [done|]. by vm_compute.
Qed.

(** C5, amended. On a reachable store an accepted [typingStopped] event
    removes the named user from the typing set of the conversation.  When
    the conversation has a typing set and the event empties it, the entry
    of the set is deleted and the blurb becomes the stashed pending body,
    or the empty string if none is stashed; when users remain, the blurb
    becomes the typing phrase of the remaining users.  When the
    conversation has no typing set, the blurb becomes the empty string. *)
Theorem typingStopped_blurb event st timestamp conversationId :
  reachable st →
  accepted event st timestamp conversationId →
  type event = EventType.TypingStopped →
  ∃ c, Map_get conversationId (conversations (handleEvent event st)) = Some c
       ∧ (∀ u, EventData.user (data event) = Some u →
               u ∉ default [] (typingUsers (handleEvent event st) !! conversationId))
       ∧ match typingUsers st !! conversationId with
         | Some found =>
             let rest := without_user (EventData.user (data event)) found in
             (∀ u, u ∈ rest ↔ (u ∈ found ∧ EventData.user (data event) ≠ Some u))
             ∧ if decide (rest = [])
               then typingUsers (handleEvent event st) !! conversationId = None
                    ∧ Conversation.blurb c
                      = default EmptyString (lastBody st !! conversationId)
               else typingUsers (handleEvent event st) !! conversationId = Some rest
                    ∧ Conversation.blurb c = replying rest
         | None =>
             typingUsers (handleEvent event st) !! conversationId = None
             ∧ Conversation.blurb c = EmptyString
         end.
Proof.
  intros Hok%reachable_Typing_ok Hacc Hty.
  destruct (handleEvent_TypingStopped _ _ _ _ Hacc Hty) as ((c & Hget & Hc) & Htu & _).
  exists c. split; [done|].
  rewrite Hc, Htu, deleteBlurbForTypingUsers_blurb, deleteBlurbForTypingUsers_typingUsers.
  destruct (typingUsers st !! conversationId) as [found|] eqn:Hfound.
  - destruct (Hok _ _ Hfound) as (_ & Hno & _).
    pose proof (λ u, without_user_elem_of (EventData.user (data event)) found u Hno) as Hrest.
    destruct (without_user _ found) as [|x rest] eqn:Hwithout.
    + rewrite lookup_delete_eq. simpl. split; [intros u _; apply not_elem_of_nil|].
      split; [done|]. by rewrite js_or_empty.
    + rewrite lookup_insert_eq. simpl. split; [|done].
      intros u Hu. rewrite Hrest. tauto.
  - rewrite Hfound. simpl. split; [intros u _; apply not_elem_of_nil | done].
Qed.

(** C5 as stated fails where no typing set exists: after typing has
    started, a message has arrived and typing has stopped, the conversation
    has no typing set and a stashed pending body ["hi"]; one more accepted
    [typingStopped] event sets the blurb to the empty string, not to the
    stashed body. *)
Lemma typingStopped_without_set_counterexample :
  let st :=
    handleEvents
      [event_of EventType.TypingStarted 1 "c1" (Some "u1"%string) None None;
       event_of EventType.MessageReceived 2 "c1" None None (Some "hi"%string);
       event_of EventType.TypingStopped 3 "c1" (Some "u1"%string) None None]
      new_Store in
  let event := event_of EventType.TypingStopped 4 "c1" (Some "u1"%string) None None in
  reachable st
  ∧ accepted event st 4 "c1"
  ∧ typingUsers st !! "c1"%string = None
  ∧ lastBody st !! "c1"%string = Some "hi"%string
  ∧ ∃ c, Map_get "c1" (conversations (handleEvent event st)) = Some c
         ∧ Conversation.blurb c = EmptyString
         ∧ Conversation.blurb c ≠ default EmptyString (lastBody st !! "c1"%string).
Proof.
  cbv zeta. split; [apply reachable_handleEvents, reachable_new|].
  split.
  { split; [done|]. split; [done|]. split; [by vm_compute|].
    apply (bool_decide_unpack _). by vm_compute. }
  split; [by vm_compute|]. split; [by vm_compute|].
  eexists. split; [by vm_compute|]. split; [done|]. by vm_compute.
Qed.

(** ** The blurb bound *)

(** *** Where long blurbs come from

    On a reachable store a blurb of more than 256 characters that is not
    the typing phrase is a pending body: the restore of line 196 is the
    only way past the bound. *)

Lemma handleEvent_typing_other event st k :
  EventData.conversationId (data event) ≠ Some k →
  typingUsers (handleEvent event st) !! k = typingUsers st !! k
  ∧ lastBody (handleEvent event st) !! k = lastBody st !! k.
Proof.
  intros Hk.
  assert (∀ ts cid, accepted event st ts cid → cid ≠ k) as Hne.
  { intros ts cid (_ & [? _]%truthy_Some & _) ->. done. }
  destruct (handleEvent_typing event st)
    as [[-> [->|(ts & cid & Hacc & _ & _ & ->)]]
       |(-> & ts & cid & Hacc & [[_ ->]|[_ ->]])]; [done|..].
  - by rewrite lookup_insert_ne by by eapply Hne.
  - rewrite addAndgetBlurbForTypingUsers_typingUsers.
    destruct (truthy _); [|done]. by rewrite lookup_insert_ne by by eapply Hne.
  - rewrite deleteBlurbForTypingUsers_typingUsers.
    destruct (typingUsers st !! cid); [|done].
    destruct (without_user _ _).
    + by rewrite lookup_delete_ne by by eapply Hne.
    + by rewrite lookup_insert_ne by by eapply Hne.
Qed.

Lemma handleEvent_Typing_filed event st :
  Store_ok st → Typing_filed st → Typing_filed (handleEvent event st).
Proof.
  intros Hok Hfiled k l Hl.
  destruct (decide (EventData.conversationId (data event) = Some k)) as [Hk|Hk].
  - destruct (handleEvent_cases event st) as [Hsame|(ts & cid & Hacc)].
    { rewrite Hsame in *. by eapply Hfiled. }
    assert (cid = k) as ->.
    { destruct Hacc as (_ & [? _]%truthy_Some & _). congruence. }
    destruct (dispatch (type event) k (data event) (current k st) (registered k ts st))
      as [[c' st']|] eqn:Hd.
    + destruct (handleEvent_known _ _ _ _ _ _ Hacc Hd) as (_ & -> & _). done.
    + apply dispatch_None in Hd. rewrite (handleEvent_unknown _ _ _ _ Hacc Hd) in *.
      destruct (Map_get k (conversations st)) as [c|] eqn:Hget.
      * rewrite isEmpty_stamped in * by (by eapply ok_stamped). by eapply Hfiled.
      * by eapply Hfiled.
  - destruct (handleEvent_typing_other event st k Hk) as [Htu _].
    rewrite Htu in Hl. rewrite handleEvent_conversations_other by done. by eapply Hfiled.
Qed.

Lemma current_blurb_source cid st :
  Typing_filed st → Blurb_ok st →
  blurb_source cid (Conversation.blurb (current cid st)) (typingUsers st) (lastBody st).
Proof.
  intros Hfiled Hblurb. unfold current.
  destruct (Map_get cid (conversations st)) as [c|] eqn:Hget; simpl; [by apply Hblurb|].
  unfold blurb_source. destruct (typingUsers st !! cid) as [l|] eqn:Hl.
  - destruct (Hfiled _ _ Hl) as [c Hc]. congruence.
  - left. simpl. lia.
Qed.

Lemma handleEvent_Blurb_ok event st :
  Store_ok st → Typing_ok st → Typing_filed st → Blurb_ok st →
  Blurb_ok (handleEvent event st).
Proof.
  intros Hok Htyping Hfiled Hblurb k c Hc.
  destruct (decide (EventData.conversationId (data event) = Some k)) as [Hk|Hk].
  2: { destruct (handleEvent_typing_other event st k Hk) as [Htu Hlb].
       rewrite handleEvent_conversations_other in Hc by done.
       unfold blurb_source. rewrite Htu, Hlb. by apply Hblurb. }
  destruct (handleEvent_cases event st) as [Hsame|(ts & cid & Hacc)].
  { rewrite Hsame in *. by apply Hblurb. }
  assert (cid = k) as ->.
  { destruct Hacc as (_ & [? _]%truthy_Some & _). congruence. }
  pose proof (current_blurb_source k st Hfiled Hblurb) as Hcur.
  destruct (decide (type event ∈ knownTypes)) as [Hty|Hty].
  2: { rewrite (handleEvent_unknown _ _ _ _ Hacc Hty) in *.
       destruct (Map_get k (conversations st)) as [c0|] eqn:Hget; [|by apply Hblurb].
       rewrite isEmpty_stamped in * by (by eapply ok_stamped). by apply Hblurb. }
  unfold blurb_source in *.
  apply knownTypes_cases in Hty as [Hty|[Hty|[Hty|[Hty|Hty]]]].
  - pose proof (dispatch_MessageReceived k (data event) (current k st)
                  (registered k ts st)) as Hd.
    rewrite nobodyTyping_registered, <-Hty in Hd. cbv zeta in Hd.
    destruct (nobodyTyping k st) eqn:Hnobody.
    + destruct (handleEvent_known _ _ _ _ _ _ Hacc Hd) as (Heq & Hget & _).
      assert (Conversation.blurb c
              = js_or (slice0 256 <$> EventData.body (data event))
                  (Conversation.blurb (current k st))) as ->.
      { rewrite Hget in Hc. by injection Hc as <-. }
      rewrite Heq, typingUsers_with_conversations, lastBody_with_conversations,
        typingUsers_registered, lastBody_registered.
      unfold nobodyTyping in Hnobody.
      destruct (typingUsers st !! k) as [users|] eqn:Husers.
      { destruct (Htyping _ _ Husers) as (Hne & _). by destruct users. }
      destruct (EventData.body (data event)) as [b|]; [|exact Hcur].
      change (slice0 256 <$> Some b) with (Some (slice0 256 b)).
      destruct (decide (slice0 256 b = EmptyString)) as [->|Hne]; [exact Hcur|].
      rewrite (js_or_Some _ _ Hne). left. rewrite slice0_length. lia.
    + destruct (handleEvent_known _ _ _ _ _ _ Hacc Hd) as (Heq & Hget & _).
      assert (Conversation.blurb c = Conversation.blurb (current k st)) as ->.
      { rewrite Hget in Hc. by injection Hc as <-. }
      rewrite Heq, typingUsers_with_conversations, typingUsers_with_lastBody,
        typingUsers_registered.
      unfold nobodyTyping in Hnobody.
      by destruct (typingUsers st !! k).
  - pose proof (dispatch_Assigned k (data event) (current k st) (registered k ts st)) as Hd.
    rewrite <-Hty in Hd.
    destruct (handleEvent_known _ _ _ _ _ _ Hacc Hd) as (Heq & Hget & _).
    rewrite Hget in Hc. injection Hc as <-. rewrite Heq.
    by rewrite typingUsers_with_conversations, lastBody_with_conversations,
      typingUsers_registered, lastBody_registered.
  - pose proof (dispatch_Unassigned k (data event) (current k st) (registered k ts st)) as Hd.
    rewrite <-Hty in Hd.
    destruct (handleEvent_known _ _ _ _ _ _ Hacc Hd) as (Heq & Hget & _).
    rewrite Hget in Hc. injection Hc as <-. rewrite Heq.
    by rewrite typingUsers_with_conversations, lastBody_with_conversations,
      typingUsers_registered, lastBody_registered.
  - pose proof (dispatch_TypingStarted k (data event) (current k st) (registered k ts st)) as Hd.
    rewrite <-Hty in Hd.
    destruct (handleEvent_known _ _ _ _ _ _ Hacc Hd) as (Heq & Hget & _).
    assert (Conversation.blurb c
            = replying
                (default []
                   (typingUsers
                      (addAndgetBlurbForTypingUsers k (EventData.user (data event))
                         (registered k ts st)).2 !! k))) as ->.
    { rewrite Hget in Hc. by injection Hc as <-. }
    rewrite Heq, typingUsers_with_conversations.
    destruct (typingUsers (addAndgetBlurbForTypingUsers k _ _).2 !! k); simpl; [done|].
    left. lia.
  - destruct (handleEvent_TypingStopped _ _ _ _ Hacc Hty) as ((c' & Hget & Hb) & Htu & Hlb).
    rewrite Hget in Hc. injection Hc as <-.
    rewrite Hb, Htu, Hlb, deleteBlurbForTypingUsers_blurb,
      deleteBlurbForTypingUsers_typingUsers.
    destruct (typingUsers st !! k) as [found|] eqn:Hfound.
    + destruct (without_user _ found) as [|u rest].
      * rewrite lookup_delete_eq.
        destruct (lastBody st !! k) as [[|a r]|]; simpl; [left; lia | by right | left; lia].
      * by rewrite lookup_insert_eq.
    + rewrite Hfound. left. simpl. lia.
Qed.

Lemma reachable_Blurb_ok st : reachable st → Typing_filed st ∧ Blurb_ok st.
Proof.
  induction 1 as [|event st Hreach [Hfiled Hblurb]].
  - split; intros k c Hc; simpl in Hc; [by rewrite lookup_empty in Hc | done].
  - pose proof (reachable_ok _ Hreach) as Hok.
    pose proof (reachable_Typing_ok _ Hreach) as Htyping.
    split; [by apply handleEvent_Typing_filed | by apply handleEvent_Blurb_ok].
Qed.

(** If every pending body were at most 256 characters long, so would be
    every blurb that is not the typing phrase. *)
Lemma blurb_bound_but_for_pending st :
  reachable st →
  (∀ k b, lastBody st !! k = Some b → (String.length b ≤ 256)%nat) →
  ∀ k c, Map_get k (conversations st) = Some c →
         (String.length (Conversation.blurb c) ≤ 256)%nat
         ∨ Conversation.blurb c = getBlurbForTypingUsers k st.
Proof.
  intros [_ Hblurb]%reachable_Blurb_ok Hpending k c Hc.
  specialize (Hblurb k c Hc). unfold blurb_source, getBlurbForTypingUsers in *.
  destruct (typingUsers st !! k); simpl; [by right|].
  destruct Hblurb as [?|Hb]; [by left|]. left. by eapply Hpending.
Qed.

(** C1 at the failing input. A user starts typing, a message with a body
    of 300 characters arrives, the user stops typing: the store is
    reachable, nobody is typing any more, so the typing phrase of the
    conversation is empty, and the blurb is the whole body, 300 characters
    long.  The body is stashed and restored without [slice(0, 256)]. *)
Theorem restored_body_not_truncated :
  let body := repeat_string "A" 300 in
  let st :=
    handleEvents
      [event_of EventType.TypingStarted 1 "c1" (Some "u1"%string) None None;
       event_of EventType.MessageReceived 2 "c1" None None (Some body);
       event_of EventType.TypingStopped 3 "c1" (Some "u1"%string) None None]
      new_Store in
  reachable st
  ∧ typingUsers st !! "c1"%string = None
  ∧ getBlurbForTypingUsers "c1" st = EmptyString
  ∧ ∃ c, Map_get "c1" (conversations st) = Some c
         ∧ Conversation.blurb c = body
         ∧ String.length (Conversation.blurb c) = 300%nat
         ∧ Conversation.blurb c ≠ getBlurbForTypingUsers "c1" st.
Proof.
  cbv zeta. split; [apply reachable_handleEvents, reachable_new|].
  split; [by vm_compute|]. split; [by vm_compute|].
  eexists. split; [by vm_compute|]. split; [by vm_compute|].
  split; [by vm_compute|]. by vm_compute.
Qed.

(** ** Unknown kinds *)

(** The key is a string, and two different pairs can give the same one:
    the decimal rendering of a negative timestamp starts with the
    separator. *)
Lemma eventId_collision : eventId "a-" 1 = eventId "a" (-1).
Proof. reflexivity. Qed.

(** A recorded key is the key of an event that was applied. *)
Lemma handleEvent_uniqueEvents event st x :
  x ∈ uniqueEvents (handleEvent event st) →
  x ∈ uniqueEvents st
  ∨ ∃ ts cid, EventData.timestamp (data event) = Some ts
              ∧ EventData.conversationId (data event) = Some cid
              ∧ x = eventId cid ts.
Proof.
  destruct (handleEvent_cases event st) as [->|(ts & cid & Hacc)]; [by left|].
  destruct (dispatch (type event) cid (data event) (current cid st) (registered cid ts st))
    as [[c' st']|] eqn:Hd.
  - destruct (handleEvent_known _ _ _ _ _ _ Hacc Hd) as (-> & _ & _). simpl.
    destruct (dispatch_frame _ _ _ _ _ _ _ Hd) as (_ & -> & _).
    destruct Hacc as ([Hts _]%truthy_number_Some & [Hcid _]%truthy_Some & _).
    unfold registered. simpl.
    destruct (Map_get cid (conversations st)); simpl;
      rewrite elem_of_union, elem_of_singleton; intros [->|?]; eauto 6.
  - apply dispatch_None in Hd. rewrite (handleEvent_unknown _ _ _ _ Hacc Hd).
    destruct (Map_get cid (conversations st)) as [c|]; [|by left].
    destruct (isEmpty c); by left.
Qed.

Lemma handleEvents_uniqueEvents events st x :
  x ∈ uniqueEvents (handleEvents events st) →
  x ∈ uniqueEvents st
  ∨ ∃ e ts cid, e ∈ events
                ∧ EventData.timestamp (data e) = Some ts
                ∧ EventData.conversationId (data e) = Some cid
                ∧ x = eventId cid ts.
Proof.
  revert st. induction events as [|event events IH]; intros st; simpl; [by left|].
  intros [Hx|(e & ts & cid & He & Hrest)]%IH.
  - apply handleEvent_uniqueEvents in Hx as [?|(ts & cid & Hrest)]; [by left|].
    right. exists event, ts, cid. split; [apply list_elem_of_here | done].
  - right. exists e, ts, cid. split; [by apply list_elem_of_further | done].
Qed.

(** What the [default] arm does when it is reached.  Let an event of
    unknown kind, with a timestamp that is not zero and a conversation id
    that is not empty, be the first event that bears its conversation id,
    and let the string [`${conversationId}-${timestamp}`] not be recorded.
    Then [handleEvent] leaves the store as it found it: the registry has no
    entry for the id, [getConversations] lists none, the key is not recorded
    and no watermark is set.  Any later event with the same timestamp and id
    is therefore accepted, and one of a known kind creates the entry with
    that timestamp. *)
Theorem unknown_first_event_leaves_nothing events event timestamp conversationId :
  let st := handleEvents events new_Store in
  (∀ e, e ∈ events → EventData.conversationId (data e) ≠ Some conversationId) →
  type event ∉ knownTypes →
  EventData.timestamp (data event) = Some timestamp → timestamp ≠ 0 →
  EventData.conversationId (data event) = Some conversationId →
  conversationId ≠ EmptyString →
  eventId conversationId timestamp ∉ uniqueEvents st →
  let st' := handleEvent event st in
  st' = st
  ∧ Map_get conversationId (conversations st') = None
  ∧ (∀ c, c ∈ (getConversations st').1 → Conversation.id c ≠ conversationId)
  ∧ (eventId conversationId timestamp ∉ uniqueEvents st')
  ∧ ∀ resend,
      EventData.timestamp (data resend) = Some timestamp →
      EventData.conversationId (data resend) = Some conversationId →
      accepted resend st' timestamp conversationId
      ∧ (type resend ∈ knownTypes →
         ∃ c, Map_get conversationId (conversations (handleEvent resend st')) = Some c
              ∧ Conversation.lastUpdatedTimestamp c = timestamp
              ∧ eventId conversationId timestamp ∈ uniqueEvents (handleEvent resend st')).
Proof.
  intros st Hfirst Hty Hts Hts0 Hcid Hcid0 Hkey st'.
  assert (Map_get conversationId (conversations st) = None) as Hget.
  { unfold st. by rewrite (handleEvents_conversations_other _ _ _ Hfirst). }
  assert (∀ e, EventData.timestamp (data e) = Some timestamp →
               EventData.conversationId (data e) = Some conversationId →
               accepted e st timestamp conversationId) as Hacc.
  { intros e He1 He2. unfold accepted. rewrite He1, He2, Hget.
    split; [by destruct timestamp|]. split; [by destruct conversationId|]. done. }
  assert (st' = st) as Hsame.
  { unfold st'. rewrite (handleEvent_unknown _ _ _ _ (Hacc _ Hts Hcid) Hty). by rewrite Hget. }
  assert (Store_ok st) as Hok.
  { apply reachable_ok, reachable_handleEvents, reachable_new. }
  rewrite Hsame. split; [done|]. split; [done|]. split; [|split; [done|]].
  - intros c [Hc _]%(getConversations_elem_of _ _ Hok) Hid.
    rewrite Hid in Hc. congruence.
  - intros resend Hr1 Hr2. split; [by apply Hacc|]. intros Hknown.
    destruct (dispatch_known (type resend) conversationId (data resend)
                (current conversationId st) (registered conversationId timestamp st) Hknown)
      as [[c' st1] Hd].
    destruct (handleEvent_known _ _ _ _ _ _ (Hacc _ Hr1 Hr2) Hd) as (_ & Hc & Hin).
    eexists. split; [exact Hc|]. by split.
Qed.

(** C6 at the failing input.  The [messageReceived] event of conversation
    ["a-"] at timestamp [1] records the key ["a--1"].  The event of unknown
    kind of conversation ["a"] at timestamp [-1] is the first event that
    bears the id ["a"], which has no entry, and it has the same key: it is
    stopped by the dedup guard before the [switch].  Afterwards the key of
    the pair is recorded, and a resend with a known kind is dropped as
    already processed and creates no entry. *)
Theorem unknown_first_event_key_collision :
  let events := [event_of EventType.MessageReceived 1 "a-" None None (Some "x"%string)] in
  let st := handleEvents events new_Store in
  let event := event_of "bogus" (-1) "a" None None None in
  let resend := event_of EventType.MessageReceived (-1) "a" None None (Some "y"%string) in
  (∀ e, e ∈ events → EventData.conversationId (data e) ≠ Some "a"%string)
  ∧ Map_get "a" (conversations st) = None
  ∧ (type event ∉ knownTypes)
  ∧ eventId "a" (-1) = eventId "a-" 1
  ∧ ¬ accepted event st (-1) "a"
  ∧ eventId "a" (-1) ∈ uniqueEvents (handleEvent event st)
  ∧ ¬ accepted resend (handleEvent event st) (-1) "a"
  ∧ handleEvent resend (handleEvent event st) = handleEvent event st
  ∧ Map_get "a" (conversations (handleEvent resend (handleEvent event st))) = None.
Proof.
  cbv zeta.
  assert (eventId "a" (-1)
            ∈ uniqueEvents
                (handleEvents
                   [event_of EventType.MessageReceived 1 "a-" None None (Some "x"%string)]
                   new_Store)) as Hbefore by by_evaluation.
  assert (eventId "a" (-1)
            ∈ uniqueEvents
                (handleEvent (event_of "bogus" (-1) "a" None None None)
                   (handleEvents
                      [event_of EventType.MessageReceived 1 "a-" None None (Some "x"%string)]
                      new_Store))) as Hin by by_evaluation.
  split; [intros e ->%list_elem_of_singleton; done|].
  split; [by_evaluation|]. split; [by_evaluation|]. split; [reflexivity|].
  split; [by intros (_ & _ & _ & Hfresh)|]. split; [done|].
  split; [by intros (_ & _ & _ & Hfresh)|]. split.
  - by apply (handleEvent_recorded _ _ (-1) "a").
  - rewrite (handleEvent_recorded _ _ (-1) "a") by done. by_evaluation.
Qed.

(** ** The theorems at concrete inputs *)

(** Scenario 2 of the specification: a message at 20, then one at 10. *)
Lemma ordering_monotonicity_witness :
  let st := handleEvent (event_of EventType.MessageReceived 20 "c1" None None (Some "B"%string))
              new_Store in
  let older := event_of EventType.MessageReceived 10 "c1" None None (Some "A"%string) in
  let newer := event_of EventType.Assigned 30 "c1" (Some "u1"%string) None None in
  reachable st
  ∧ handleEvent older st = st
  ∧ ∃ c', Map_get "c1" (conversations (handleEvents [older; newer] st)) = Some c'
          ∧ 20 ≤ Conversation.lastUpdatedTimestamp c'.
Proof.
  cbv zeta.
  assert (reachable
            (handleEvent (event_of EventType.MessageReceived 20 "c1" None None (Some "B"%string))
               new_Store)) as Hreach by (constructor; constructor).
  split; [exact Hreach|].
  destruct (ordering_monotonicity _ Hreach) as [Hmono Hstale].
  split.
  - apply (Hstale _ 10 "c1"%string
             (Conversation.mk "c1" None "" "B" 1 20));
      [reflexivity | reflexivity | by_evaluation | simpl; lia].
  - apply (Hmono _ "c1"%string (Conversation.mk "c1" None "" "B" 1 20)). by_evaluation.
Defined.

(** Scenario 3 of the specification, with the message delivered twice
    and an assignment before typing stops. *)
Lemma typing_precedence_last_message_witness :
  let st := handleEvent (event_of EventType.TypingStarted 1 "c1" (Some "u1"%string) None None)
              new_Store in
  let message := event_of EventType.MessageReceived 2 "c1" None None (Some "hi"%string) in
  let between := [message; event_of EventType.Assigned 3 "c1" (Some "u2"%string) None None] in
  let stopped := event_of EventType.TypingStopped 4 "c1" (Some "u1"%string) None None in
  accepted message st 2 "c1"
  ∧ nobodyTyping "c1" st = false
  ∧ stashedBetween "c1" between (handleEvent message st) = false
  ∧ (∃ c, Map_get "c1" (conversations (handleEvent message st)) = Some c
          ∧ Conversation.blurb c = "u1 is replying..."%string)
  ∧ ∃ c, Map_get "c1"
           (conversations (handleEvent stopped (handleEvents between (handleEvent message st))))
         = Some c
         ∧ Conversation.blurb c = "hi"%string.
Proof.
  cbv zeta.
  assert (accepted (event_of EventType.MessageReceived 2 "c1" None None (Some "hi"%string))
            (handleEvent (event_of EventType.TypingStarted 1 "c1" (Some "u1"%string) None None)
               new_Store) 2 "c1") as Hacc by accepted_by_evaluation.
  split; [exact Hacc|]. split; [by_evaluation|]. split; [by_evaluation|].
  destruct (typing_precedence_last_message _ _ _ _ Hacc eq_refl ltac:(by_evaluation))
    as [Hkeep Hrestore].
  split; [exact Hkeep|].
  apply (Hrestore
           [event_of EventType.MessageReceived 2 "c1" None None (Some "hi"%string);
            event_of EventType.Assigned 3 "c1" (Some "u2"%string) None None] _ 4).
  - by_evaluation.
  - accepted_by_evaluation.
  - reflexivity.
  - by_evaluation.
  - by_evaluation.
  - simpl. lia.
Defined.

Lemma typingStopped_blurb_witness :
  let st :=
    handleEvents
      [event_of EventType.TypingStarted 1 "c1" (Some "u1"%string) None None;
       event_of EventType.TypingStarted 2 "c1" (Some "u2"%string) None None]
      new_Store in
  let event := event_of EventType.TypingStopped 3 "c1" (Some "u1"%string) None None in
  reachable st
  ∧ accepted event st 3 "c1"
  ∧ ∃ c, Map_get "c1" (conversations (handleEvent event st)) = Some c
         ∧ typingUsers (handleEvent event st) !! "c1"%string = Some ["u2"%string]
         ∧ Conversation.blurb c = "u2 is replying..."%string.
Proof.
  cbv zeta.
  assert (reachable
            (handleEvents
               [event_of EventType.TypingStarted 1 "c1" (Some "u1"%string) None None;
                event_of EventType.TypingStarted 2 "c1" (Some "u2"%string) None None]
               new_Store)) as Hreach by apply reachable_handleEvents, reachable_new.
  assert (accepted (event_of EventType.TypingStopped 3 "c1" (Some "u1"%string) None None)
            (handleEvents
               [event_of EventType.TypingStarted 1 "c1" (Some "u1"%string) None None;
                event_of EventType.TypingStarted 2 "c1" (Some "u2"%string) None None]
               new_Store) 3 "c1") as Hacc by accepted_by_evaluation.
  split; [exact Hreach|]. split; [exact Hacc|].
  destruct (typingStopped_blurb _ _ _ _ Hreach Hacc eq_refl) as (c & Hget & _ & Hcase).
  exists c. split; [exact Hget|]. split; [by_evaluation|].
  vm_compute in Hcase. destruct Hcase as (_ & _ & Hblurb). exact Hblurb.
Defined.

(** Scenario 5 of the specification, after another conversation exists. *)
Lemma unknown_first_event_leaves_nothing_witness :
  let events := [event_of EventType.MessageReceived 1 "c1" None None (Some "hello"%string)] in
  let st := handleEvents events new_Store in
  let event := event_of "bogus" 7 "c9" None None None in
  let resend := event_of EventType.Assigned 7 "c9" (Some "u1"%string) None None in
  (∀ e, e ∈ events → EventData.conversationId (data e) ≠ Some "c9"%string)
  ∧ (type event ∉ knownTypes)
  ∧ (eventId "c9" 7 ∉ uniqueEvents st)
  ∧ handleEvent event st = st
  ∧ Map_get "c9" (conversations (handleEvent event st)) = None
  ∧ (eventId "c9" 7 ∉ uniqueEvents (handleEvent event st))
  ∧ ∃ c, Map_get "c9" (conversations (handleEvent resend (handleEvent event st))) = Some c
         ∧ Conversation.lastUpdatedTimestamp c = 7.
Proof.
  cbv zeta.
  assert (∀ e, e ∈ [event_of EventType.MessageReceived 1 "c1" None None (Some "hello"%string)] →
               EventData.conversationId (data e) ≠ Some "c9"%string) as Hfirst.
  { intros e He. apply list_elem_of_singleton in He. rewrite He. discriminate. }
  assert (type (event_of "bogus" 7 "c9" None None None) ∉ knownTypes) as Hty by by_evaluation.
  assert (eventId "c9" 7
            ∉ uniqueEvents
                (handleEvents
                   [event_of EventType.MessageReceived 1 "c1" None None (Some "hello"%string)]
                   new_Store)) as Hkey by by_evaluation.
  split; [exact Hfirst|]. split; [exact Hty|]. split; [exact Hkey|].
  destruct (unknown_first_event_leaves_nothing _ (event_of "bogus" 7 "c9" None None None)
              7 "c9"%string Hfirst Hty eq_refl ltac:(discriminate) eq_refl ltac:(discriminate) Hkey)
    as (Hsame & Hget & _ & Hkey' & Hresend).
  split; [exact Hsame|]. split; [exact Hget|]. split; [exact Hkey'|].
  destruct (Hresend (event_of EventType.Assigned 7 "c9" (Some "u1"%string) None None)
              eq_refl eq_refl) as [_ Hknown].
  destruct (Hknown ltac:(by_evaluation)) as (c & Hc & Hlu & _).
  exists c. by split.
Defined.

(** Scenario 4 of the specification, with two more conversations. *)
Lemma getConversations_filtered_sorted_witness :
  let st :=
    handleEvents
      [event_of EventType.MessageReceived 1 "c1" None None (Some "one"%string);
       event_of EventType.Assigned 2 "c1" (Some "John_Doe"%string) None None;
       event_of EventType.MessageReceived 3 "c2" None None (Some "two"%string);
       event_of EventType.MessageReceived 5 "c3" None None (Some "three"%string)]
      new_Store in
  reachable st
  ∧ (getConversations st).2 = st
  ∧ (getConversations st).1
      ≡ₚ filter (λ c, ¬ blocked st c) (Map_values (conversations st))
  ∧ StronglySorted
      (λ a b, Conversation.lastUpdatedTimestamp b ≤ Conversation.lastUpdatedTimestamp a)
      (getConversations st).1
  ∧ ∀ c, c ∈ (getConversations st).1
         ↔ Map_get (Conversation.id c) (conversations st) = Some c ∧ ¬ blocked st c.
Proof.
  cbv zeta.
  assert (reachable
            (handleEvents
               [event_of EventType.MessageReceived 1 "c1" None None (Some "one"%string);
                event_of EventType.Assigned 2 "c1" (Some "John_Doe"%string) None None;
                event_of EventType.MessageReceived 3 "c2" None None (Some "two"%string);
                event_of EventType.MessageReceived 5 "c3" None None (Some "three"%string)]
               new_Store)) as Hreach by apply reachable_handleEvents, reachable_new.
  split; [exact Hreach|]. exact (getConversations_filtered_sorted _ Hreach).
Defined.

(** The test of the truncation: a body of 300 characters. *)
Lemma messageReceived_truncation_witness :
  let body := repeat_string "A" 300 in
  let event := event_of EventType.MessageReceived 1650901269127 "conversation1"
                 None (Some "Test Subject"%string) (Some body) in
  reachable new_Store
  ∧ accepted event new_Store 1650901269127 "conversation1"
  ∧ (256 ≤ String.length body)%nat
  ∧ nobodyTyping "conversation1" new_Store = true
  ∧ ∃ c, Map_get "conversation1" (conversations (handleEvent event new_Store)) = Some c
         ∧ Conversation.blurb c = slice0 256 body
         ∧ String.length (Conversation.blurb c) = 256%nat
         ∧ c ∈ (getConversations (handleEvent event new_Store)).1.
Proof.
  cbv zeta.
  assert (accepted
            (event_of EventType.MessageReceived 1650901269127 "conversation1"
               None (Some "Test Subject"%string) (Some (repeat_string "A" 300)))
            new_Store 1650901269127 "conversation1") as Hacc by accepted_by_evaluation.
  assert (256 ≤ String.length (repeat_string "A" 300))%nat as Hlen
    by (apply Nat.leb_le; vm_compute; reflexivity).
  split; [exact reachable_new|]. split; [exact Hacc|]. split; [exact Hlen|].
  split; [reflexivity|].
  destruct (messageReceived_truncation _ _ _ _ _ reachable_new Hacc eq_refl eq_refl Hlen eq_refl)
    as (c & Hget & Hblurb & Hlen' & _ & _ & Hlisted).
  exists c. split; [exact Hget|]. split; [exact Hblurb|]. split; [exact Hlen'|].
  apply Hlisted. unfold blocked.
  assert (Conversation.assignedUser c = None) as ->; [|tauto].
  assert (Some c = Some (Conversation.mk "conversation1" None "Test Subject"
                           (slice0 256 (repeat_string "A" 300)) 1 1650901269127)) as Hc.
  { rewrite <-Hget. by_evaluation. }
  injection Hc as ->. reflexivity.
Defined.

Lemma assigned_sets_user_witness :
  let event := event_of EventType.Assigned 1 "c1" (Some "agent"%string) None None in
  accepted event new_Store 1 "c1"
  ∧ ∃ c, Map_get "c1" (conversations (handleEvent event new_Store)) = Some c
         ∧ Conversation.assignedUser c = Some "agent"%string.
Proof.
  cbv zeta.
  assert (accepted (event_of EventType.Assigned 1 "c1" (Some "agent"%string) None None)
            new_Store 1 "c1") as Hacc by accepted_by_evaluation.
  split; [exact Hacc|].
  destruct (assigned_sets_user _ _ _ _ Hacc eq_refl) as (c & Hget & Hset & _).
  exists c. split; [exact Hget|]. apply Hset; [reflexivity|discriminate].
Defined.

Lemma messageReceived_empty_is_absent_witness :
  let st := handleEvent
              (event_of EventType.MessageReceived 1 "c1" None (Some "Hello"%string)
                 (Some "first"%string)) new_Store in
  let event := event_of EventType.MessageReceived 2 "c1" None (Some EmptyString)
                 (Some EmptyString) in
  accepted event st 2 "c1"
  ∧ nobodyTyping "c1" st = true
  ∧ ∃ c, Map_get "c1" (conversations (handleEvent event st)) = Some c
         ∧ Conversation.blurb c = "first"%string
         ∧ Conversation.subject c = "Hello"%string.
Proof.
  cbv zeta.
  assert (accepted
            (event_of EventType.MessageReceived 2 "c1" None (Some EmptyString) (Some EmptyString))
            (handleEvent
               (event_of EventType.MessageReceived 1 "c1" None (Some "Hello"%string)
                  (Some "first"%string)) new_Store) 2 "c1") as Hacc by accepted_by_evaluation.
  split; [exact Hacc|]. split; [by_evaluation|].
  destruct (messageReceived_empty_is_absent _ _ _ _ Hacc eq_refl) as (c & Hget & Hblurb & Hsubject).
  exists c. split; [exact Hget|]. split.
  - apply Hblurb; [by right | by_evaluation].
  - apply Hsubject. by right.
Defined.

(** * Further properties of the store *)

(** ** Which calls change the store *)

(** On a store that satisfies [Store_ok] the [default] arm changes
    nothing: the key is taken back and no stamped entry is pruned. *)
Lemma handleEvent_unknown_ok event st :
  Store_ok st → type event ∉ knownTypes → handleEvent event st = st.
Proof.
  intros Hok Hty.
  destruct (handleEvent_cases event st) as [Hsame|(ts & cid & Hacc)]; [done|].
  rewrite (handleEvent_unknown _ _ _ _ Hacc Hty).
  destruct (Map_get cid (conversations st)) as [c|] eqn:Hget; [|done].
  by rewrite isEmpty_stamped by (by eapply ok_stamped).
Qed.

(** X1. On a reachable store [handleEvent] returns the store as it is
    exactly when the event is not both accepted (non-zero timestamp,
    non-empty conversation id, not older than the watermark, key not
    recorded) and of one of the five known kinds: an accepted event of a
    known kind always changes the store, every other call changes
    nothing. *)
Theorem handleEvent_unchanged_iff event st :
  reachable st →
  handleEvent event st = st
  ↔ ¬ ((∃ timestamp conversationId, accepted event st timestamp conversationId)
       ∧ type event ∈ knownTypes).
Proof.
  intros Hok%reachable_ok. split.
  - intros Hsame [(ts & cid & Hacc) Hty].
    destruct (dispatch_known (type event) cid (data event) (current cid st)
                (registered cid ts st) Hty) as [[c' st'] Hd].
    destruct (handleEvent_known _ _ _ _ _ _ Hacc Hd) as (_ & _ & Hin).
    rewrite Hsame in Hin. by destruct Hacc as (_ & _ & _ & Hfresh).
  - intros Hnot.
    destruct (handleEvent_cases event st) as [Hsame|Hacc]; [done|].
    destruct (decide (type event ∈ knownTypes)) as [Hty|Hty]; [by destruct Hnot|].
    by apply handleEvent_unknown_ok.
Qed.

Lemma handleEvent_unchanged_iff_witness :
  let st := handleEvent (event_of EventType.MessageReceived 5 "c1" None None
                           (Some "hello"%string)) new_Store in
  let late := event_of EventType.Assigned 3 "c1" (Some "u1"%string) None None in
  let next := event_of EventType.Assigned 7 "c1" (Some "u1"%string) None None in
  reachable st
  ∧ handleEvent late st = st
  ∧ handleEvent next st ≠ st.
Proof.
  cbv zeta.
  assert (reachable
            (handleEvent (event_of EventType.MessageReceived 5 "c1" None None
                            (Some "hello"%string)) new_Store)) as Hreach
    by (constructor; constructor).
  split; [exact Hreach|]. split.
  - apply (handleEvent_unchanged_iff _ _ Hreach).
    intros [(ts & cid & Hts & Hcid & Hstale & _) _].
    injection Hts as <-. injection Hcid as <-. vm_compute in Hstale. discriminate.
  - intros Hsame. apply (handleEvent_unchanged_iff _ _ Hreach) in Hsame.
    apply Hsame. split; [|by_evaluation].
    exists 7, "c1"%string. accepted_by_evaluation.
Defined.

(** ** The dedup guard *)

(** A recorded key stays recorded: the only removal, in the [default]
    arm, takes back the key that the same call has just added. *)
Lemma handleEvent_uniqueEvents_mono event st x :
  x ∈ uniqueEvents st → x ∈ uniqueEvents (handleEvent event st).
Proof.
  intros Hx.
  destruct (handleEvent_cases event st) as [->|(ts & cid & Hacc)]; [done|].
  destruct (dispatch (type event) cid (data event) (current cid st) (registered cid ts st))
    as [[c' st']|] eqn:Hd.
  - destruct (handleEvent_known _ _ _ _ _ _ Hacc Hd) as (-> & _ & _). simpl.
    destruct (dispatch_frame _ _ _ _ _ _ _ Hd) as (_ & -> & _).
    unfold registered. simpl.
    destruct (Map_get cid (conversations st)); simpl; set_solver.
  - apply dispatch_None in Hd. rewrite (handleEvent_unknown _ _ _ _ Hacc Hd).
    destruct (Map_get cid (conversations st)) as [c|]; [|done].
    by destruct (isEmpty c).
Qed.

Lemma handleEvents_uniqueEvents_mono events st x :
  x ∈ uniqueEvents st → x ∈ uniqueEvents (handleEvents events st).
Proof.
  revert st. induction events as [|event events IH]; intros st Hx; simpl; [done|].
  by apply IH, handleEvent_uniqueEvents_mono.
Qed.

(** X2. Once an event of a known kind has been accepted, every later
    event with the same conversation id and the same timestamp is dropped,
    whatever its kind and payload and whatever events have been applied in
    between. *)
Theorem recorded_key_is_final event st timestamp conversationId events later :
  accepted event st timestamp conversationId →
  type event ∈ knownTypes →
  EventData.timestamp (data later) = Some timestamp →
  EventData.conversationId (data later) = Some conversationId →
  handleEvent later (handleEvents events (handleEvent event st))
  = handleEvents events (handleEvent event st).
Proof.
  intros Hacc Hty Hts Hcid.
  destruct (dispatch_known (type event) conversationId (data event)
              (current conversationId st) (registered conversationId timestamp st) Hty)
    as [[c' st'] Hd].
  destruct (handleEvent_known _ _ _ _ _ _ Hacc Hd) as (_ & _ & Hin).
  destruct Hacc as ([_ Hts0]%truthy_number_Some & [_ Hcid0]%truthy_Some & _).
  apply (handleEvent_recorded _ _ timestamp conversationId).
  - rewrite Hts. by destruct timestamp.
  - rewrite Hcid. by destruct conversationId.
  - by apply handleEvents_uniqueEvents_mono.
Qed.

Lemma recorded_key_is_final_witness :
  let first := event_of EventType.MessageReceived 10 "c1" None None (Some "one"%string) in
  let between := [event_of EventType.Assigned 20 "c1" (Some "u1"%string) None None;
                  event_of EventType.MessageReceived 5 "c2" None None (Some "x"%string)] in
  let later := event_of EventType.Unassigned 10 "c1" None None None in
  accepted first new_Store 10 "c1"
  ∧ handleEvent later (handleEvents between (handleEvent first new_Store))
    = handleEvents between (handleEvent first new_Store).
Proof.
  cbv zeta.
  assert (accepted (event_of EventType.MessageReceived 10 "c1" None None (Some "one"%string))
            new_Store 10 "c1") as Hacc by accepted_by_evaluation.
  split; [exact Hacc|].
  apply (recorded_key_is_final _ _ 10 "c1"%string _ _ Hacc); [by_evaluation|reflexivity..].
Defined.

(** The fields that the arms of the [switch] set. *)
Lemma dispatch_fields ty cid d c st c' st' :
  dispatch ty cid d c st = Some (c', st') →
  Conversation.messageCount c'
  = (if decide (ty = EventType.MessageReceived)
     then Conversation.messageCount c + 1 else Conversation.messageCount c)
  ∧ Conversation.subject c'
    = (if decide (ty = EventType.MessageReceived)
       then js_or (EventData.subject d) (Conversation.subject c) else Conversation.subject c)
  ∧ Conversation.assignedUser c'
    = (if decide (ty = EventType.Assigned) then truthy (EventData.user d)
       else if decide (ty = EventType.Unassigned) then None
       else Conversation.assignedUser c)
  ∧ Conversation.lastUpdatedTimestamp c' = Conversation.lastUpdatedTimestamp c.
Proof.
  unfold dispatch. destruct (decide (ty = EventType.MessageReceived)) as [->|Hm].
  { rewrite !decide_False by done.
    destruct (nobodyTyping cid st); by intros [= <- <-]. }
  destruct (decide (ty = EventType.Assigned)) as [->|Ha]; [by intros [= <- <-]|].
  destruct (decide (ty = EventType.Unassigned)) as [->|Hu]; [by intros [= <- <-]|].
  destruct (decide (ty = EventType.TypingStarted)) as [->|Hs].
  { destruct (addAndgetBlurbForTypingUsers cid _ st). by intros [= <- <-]. }
  destruct (decide (ty = EventType.TypingStopped)) as [->|Hp]; [|done].
  destruct (deleteBlurbForTypingUsers cid c _ st). by intros [= <- <-].
Qed.

(** The key of the watermark of every entry is recorded, ids are not
    empty and counters are not negative. *)
Lemma reachable_entries st :
  reachable st →
  ∀ k c, Map_get k (conversations st) = Some c →
         k ≠ EmptyString
         ∧ 0 ≤ Conversation.messageCount c
         ∧ eventId k (Conversation.lastUpdatedTimestamp c) ∈ uniqueEvents st.
Proof.
  induction 1 as [|event st Hreach IH]; [done|]. intros k c Hc.
  pose proof (reachable_ok _ Hreach) as Hok.
  destruct (handleEvent_cases event st) as [Hsame|(ts & cid & Hacc)].
  { rewrite Hsame in *. by apply IH. }
  destruct (decide (type event ∈ knownTypes)) as [Hty|Hty].
  2: { rewrite (handleEvent_unknown_ok _ _ Hok Hty) in *. by apply IH. }
  destruct (decide (cid = k)) as [->|Hne].
  - destruct (dispatch_known (type event) k (data event) (current k st)
                (registered k ts st) Hty) as [[c' st'] Hd].
    destruct (handleEvent_known _ _ _ _ _ _ Hacc Hd) as (_ & Hget & Hin).
    rewrite Hget in Hc. injection Hc as <-.
    destruct (dispatch_fields _ _ _ _ _ _ _ Hd) as (Hmc & _).
    destruct Hacc as (_ & [_ Hk]%truthy_Some & _).
    split; [done|]. split; [|done]. simpl. rewrite Hmc.
    assert (0 ≤ Conversation.messageCount (current k st)) as Hcur.
    { unfold current. destruct (Map_get k (conversations st)) as [c0|] eqn:Hc0; simpl; [|done].
      by destruct (IH _ _ Hc0) as (_ & ? & _). }
    case_decide; lia.
  - assert (EventData.conversationId (data event) ≠ Some k) as Hother.
    { destruct Hacc as (_ & [-> _]%truthy_Some & _). congruence. }
    rewrite handleEvent_conversations_other in Hc by done.
    destruct (IH _ _ Hc) as (? & ? & ?). split; [done|]. split; [done|].
    by apply handleEvent_uniqueEvents_mono.
Qed.

(** ** The watermark *)

(** X3. On a reachable store the timestamp of an accepted event is
    strictly above the watermark of its conversation: an event that carries
    the watermark itself is always stopped by the dedup guard.  An accepted
    event of a known kind then becomes the new watermark. *)
Theorem accepted_is_strictly_newer event st timestamp conversationId c :
  reachable st →
  accepted event st timestamp conversationId →
  Map_get conversationId (conversations st) = Some c →
  Conversation.lastUpdatedTimestamp c < timestamp
  ∧ (type event ∈ knownTypes →
     ∃ c', Map_get conversationId (conversations (handleEvent event st)) = Some c'
           ∧ Conversation.lastUpdatedTimestamp c' = timestamp).
Proof.
  intros Hreach Hacc Hc. split.
  - destruct (reachable_entries _ Hreach _ _ Hc) as (_ & _ & Hin).
    destruct Hacc as (_ & _ & Hstale & Hfresh). rewrite Hc in Hstale.
    apply stale_false in Hstale; [|by eapply ok_id, Hc; apply reachable_ok].
    destruct (decide (Conversation.lastUpdatedTimestamp c = timestamp)) as [Heq|]; [|lia].
    by rewrite Heq in Hin.
  - intros Hty.
    destruct (dispatch_known (type event) conversationId (data event)
                (current conversationId st) (registered conversationId timestamp st) Hty)
      as [[c' st'] Hd].
    destruct (handleEvent_known _ _ _ _ _ _ Hacc Hd) as (_ & Hget & _).
    eexists. by split.
Qed.

Lemma accepted_is_strictly_newer_witness :
  let st := handleEvent (event_of EventType.MessageReceived 5 "c1" None None
                           (Some "hello"%string)) new_Store in
  let event := event_of EventType.TypingStarted 9 "c1" (Some "u1"%string) None None in
  reachable st
  ∧ accepted event st 9 "c1"
  ∧ Map_get "c1" (conversations st) = Some (Conversation.mk "c1" None "" "hello" 1 5)
  ∧ 5 < 9
  ∧ ∃ c', Map_get "c1" (conversations (handleEvent event st)) = Some c'
          ∧ Conversation.lastUpdatedTimestamp c' = 9.
Proof.
  cbv zeta.
  assert (reachable
            (handleEvent (event_of EventType.MessageReceived 5 "c1" None None
                            (Some "hello"%string)) new_Store)) as Hreach
    by (constructor; constructor).
  assert (accepted (event_of EventType.TypingStarted 9 "c1" (Some "u1"%string) None None)
            (handleEvent (event_of EventType.MessageReceived 5 "c1" None None
                            (Some "hello"%string)) new_Store) 9 "c1") as Hacc
    by accepted_by_evaluation.
  split; [exact Hreach|]. split; [exact Hacc|]. split; [by_evaluation|].
  destruct (accepted_is_strictly_newer _ _ _ _
              (Conversation.mk "c1" None "" "hello" 1 5) Hreach Hacc ltac:(by_evaluation))
    as [Hlt Hnew].
  split; [exact Hlt|]. apply Hnew. by_evaluation.
Defined.

(** ** The registry *)

(** X4. An event touches its own conversation only: the registry entry,
    the typing set and the pending body of every other conversation id are
    after the call what they were before it. *)
Theorem handleEvent_isolation event st k :
  EventData.conversationId (data event) ≠ Some k →
  Map_get k (conversations (handleEvent event st)) = Map_get k (conversations st)
  ∧ typingUsers (handleEvent event st) !! k = typingUsers st !! k
  ∧ lastBody (handleEvent event st) !! k = lastBody st !! k.
Proof.
  intros Hk. split; [by apply handleEvent_conversations_other|].
  by apply handleEvent_typing_other.
Qed.

Lemma handleEvent_isolation_witness :
  let st :=
    handleEvents
      [event_of EventType.TypingStarted 1 "c1" (Some "u1"%string) None None;
       event_of EventType.MessageReceived 2 "c1" None None (Some "hi"%string)]
      new_Store in
  let event := event_of EventType.TypingStopped 3 "c2" (Some "u1"%string) None None in
  Map_get "c1" (conversations (handleEvent event st)) = Map_get "c1" (conversations st)
  ∧ typingUsers (handleEvent event st) !! "c1"%string = typingUsers st !! "c1"%string
  ∧ lastBody (handleEvent event st) !! "c1"%string = lastBody st !! "c1"%string.
Proof.
  cbv zeta. apply handleEvent_isolation. discriminate.
Defined.

(** X5. On a reachable store a call never removes or reorders registry
    keys: the list of keys stays as it is, or the conversation id of the
    event, which had no entry, is appended at its end. *)
Theorem registry_keys_grow event st :
  reachable st →
  Map_keys (conversations (handleEvent event st)) = Map_keys (conversations st)
  ∨ ∃ conversationId,
      EventData.conversationId (data event) = Some conversationId
      ∧ Map_get conversationId (conversations st) = None
      ∧ Map_keys (conversations (handleEvent event st))
        = Map_keys (conversations st) ++ [conversationId].
Proof.
  intros Hok%reachable_ok.
  destruct (handleEvent_cases event st) as [->|(ts & cid & Hacc)]; [by left|].
  destruct (decide (type event ∈ knownTypes)) as [Hty|Hty].
  2: { left. by rewrite (handleEvent_unknown_ok _ _ Hok Hty). }
  destruct (dispatch_known (type event) cid (data event) (current cid st)
              (registered cid ts st) Hty) as [[c' st'] Hd].
  destruct (handleEvent_known _ _ _ _ _ _ Hacc Hd) as (-> & _ & _). simpl.
  destruct (dispatch_frame _ _ _ _ _ _ _ Hd) as (-> & _).
  rewrite conversations_registered.
  destruct (Map_get cid (conversations st)) as [c|] eqn:Hget.
  - left. by erewrite Map_keys_set_present.
  - right. exists cid. destruct Hacc as (_ & [Hcid _]%truthy_Some & _).
    split; [done|]. split; [done|].
    erewrite Map_keys_set_present by apply Map_get_set_eq.
    by apply Map_keys_set_absent.
Qed.

Lemma registry_keys_grow_witness :
  let st := handleEvent (event_of EventType.MessageReceived 5 "c1" None None
                           (Some "hello"%string)) new_Store in
  let event := event_of EventType.MessageReceived 2 "c2" None None (Some "x"%string) in
  reachable st
  ∧ Map_keys (conversations (handleEvent event st)) = ["c1"%string; "c2"%string].
Proof.
  cbv zeta.
  assert (reachable
            (handleEvent (event_of EventType.MessageReceived 5 "c1" None None
                            (Some "hello"%string)) new_Store)) as Hreach
    by (constructor; constructor).
  split; [exact Hreach|].
  destruct (registry_keys_grow
              (event_of EventType.MessageReceived 2 "c2" None None (Some "x"%string)) _ Hreach)
    as [Hsame|(cid & Hcid & _ & Hgrow)].
  - rewrite Hsame. exfalso. vm_compute in Hsame. discriminate.
  - rewrite Hgrow. injection Hcid as <-. by_evaluation.
Defined.

(** X6. What the registry of a reachable store looks like: its keys are
    distinct and not empty; every entry is filed under its own id; its
    [lastUpdatedTimestamp] is not zero, so no entry is in the default
    shape; its [messageCount] is not negative; and the key of its watermark
    is recorded in the dedup guard. *)
Theorem reachable_registry_invariant st :
  reachable st →
  NoDup (Map_keys (conversations st))
  ∧ ∀ k c, Map_get k (conversations st) = Some c →
           Conversation.id c = k
           ∧ k ≠ EmptyString
           ∧ Conversation.lastUpdatedTimestamp c ≠ 0
           ∧ isEmpty c = false
           ∧ 0 ≤ Conversation.messageCount c
           ∧ eventId k (Conversation.lastUpdatedTimestamp c) ∈ uniqueEvents st.
Proof.
  intros Hreach. pose proof (reachable_ok _ Hreach) as Hok.
  split; [apply Hok|]. intros k c Hc.
  destruct (reachable_entries _ Hreach _ _ Hc) as (? & ? & ?).
  pose proof (ok_stamped _ Hok _ _ Hc).
  split; [by eapply ok_id|]. repeat (split; [done|]).
  split; [by apply isEmpty_stamped|]. done.
Qed.

Lemma reachable_registry_invariant_witness :
  let st :=
    handleEvents
      [event_of EventType.MessageReceived 5 "c1" None None (Some "hello"%string);
       event_of "bogus" 6 "c2" None None None;
       event_of EventType.Assigned 7 "c3" (Some "u1"%string) None None]
      new_Store in
  reachable st
  ∧ NoDup (Map_keys (conversations st))
  ∧ ∀ k c, Map_get k (conversations st) = Some c →
           Conversation.id c = k ∧ isEmpty c = false.
Proof.
  cbv zeta.
  assert (reachable
            (handleEvents
               [event_of EventType.MessageReceived 5 "c1" None None (Some "hello"%string);
                event_of "bogus" 6 "c2" None None None;
                event_of EventType.Assigned 7 "c3" (Some "u1"%string) None None]
               new_Store)) as Hreach by apply reachable_handleEvents, reachable_new.
  split; [exact Hreach|].
  destruct (reachable_registry_invariant _ Hreach) as [Hkeys Hentries].
  split; [exact Hkeys|]. intros k c Hc.
  destruct (Hentries k c Hc) as (Hid & _ & _ & Hshape & _). by split.
Defined.

(** ** The fields of an entry *)

(** X7. What an accepted event of a known kind does to the fields other
    than the blurb.  The entry of its conversation keeps its id and takes
    the timestamp of the event.  [messageCount] grows by one for
    [messageReceived] and is kept by every other kind; [subject] becomes
    [subject || conversation.subject] for [messageReceived] and is kept
    otherwise; [assignedUser] becomes [user || null] for [assigned], [null]
    for [unassigned], and is kept otherwise.  The fields before the event
    are those of the entry it finds, or the defaults for a new entry. *)
Theorem known_event_fields event st timestamp conversationId :
  accepted event st timestamp conversationId →
  type event ∈ knownTypes →
  ∃ c', Map_get conversationId (conversations (handleEvent event st)) = Some c'
        ∧ Conversation.id c' = Conversation.id (current conversationId st)
        ∧ Conversation.lastUpdatedTimestamp c' = timestamp
        ∧ Conversation.messageCount c'
          = (if decide (type event = EventType.MessageReceived)
             then Conversation.messageCount (current conversationId st) + 1
             else Conversation.messageCount (current conversationId st))
        ∧ Conversation.subject c'
          = (if decide (type event = EventType.MessageReceived)
             then js_or (EventData.subject (data event))
                    (Conversation.subject (current conversationId st))
             else Conversation.subject (current conversationId st))
        ∧ Conversation.assignedUser c'
          = (if decide (type event = EventType.Assigned)
             then truthy (EventData.user (data event))
             else if decide (type event = EventType.Unassigned) then None
             else Conversation.assignedUser (current conversationId st)).
Proof.
  intros Hacc Hty.
  destruct (dispatch_known (type event) conversationId (data event)
              (current conversationId st) (registered conversationId timestamp st) Hty)
    as [[c' st'] Hd].
  destruct (handleEvent_known _ _ _ _ _ _ Hacc Hd) as (_ & Hget & _).
  destruct (dispatch_fields _ _ _ _ _ _ _ Hd) as (Hmc & Hsubject & Huser & _).
  destruct (dispatch_frame _ _ _ _ _ _ _ Hd) as (_ & _ & _ & Hid).
  eexists. split; [exact Hget|]. by repeat split.
Qed.

Lemma known_event_fields_witness :
  let st := handleEvent (event_of EventType.MessageReceived 1 "c1" None (Some "Hello"%string)
                           (Some "first"%string)) new_Store in
  let event := event_of EventType.MessageReceived 2 "c1" None (Some "Re: Hello"%string)
                 (Some "second"%string) in
  accepted event st 2 "c1"
  ∧ ∃ c', Map_get "c1" (conversations (handleEvent event st)) = Some c'
          ∧ Conversation.messageCount c' = 2
          ∧ Conversation.subject c' = "Re: Hello"%string
          ∧ Conversation.assignedUser c' = None.
Proof.
  cbv zeta.
  assert (accepted
            (event_of EventType.MessageReceived 2 "c1" None (Some "Re: Hello"%string)
               (Some "second"%string))
            (handleEvent (event_of EventType.MessageReceived 1 "c1" None (Some "Hello"%string)
                            (Some "first"%string)) new_Store) 2 "c1") as Hacc
    by accepted_by_evaluation.
  split; [exact Hacc|].
  destruct (known_event_fields _ _ _ _ Hacc ltac:(by_evaluation))
    as (c' & Hget & _ & _ & Hmc & Hsubject & Huser).
  exists c'. split; [exact Hget|]. split; [exact Hmc|]. split; [exact Hsubject|]. exact Huser.
Defined.

Lemma current_other event st k :
  EventData.conversationId (data event) ≠ Some k →
  current k (handleEvent event st) = current k st.
Proof. intros Hk. unfold current. by rewrite handleEvent_conversations_other. Qed.

Lemma known_fields_of event st timestamp conversationId :
  accepted event st timestamp conversationId →
  type event ∈ knownTypes →
  ∃ c', Map_get conversationId (conversations (handleEvent event st)) = Some c'
        ∧ Conversation.messageCount c'
          = (if decide (type event = EventType.MessageReceived)
             then Conversation.messageCount (current conversationId st) + 1
             else Conversation.messageCount (current conversationId st)).
Proof.
  intros Hacc Hty.
  destruct (dispatch_known (type event) conversationId (data event)
              (current conversationId st) (registered conversationId timestamp st) Hty)
    as [[c' st'] Hd].
  destruct (handleEvent_known _ _ _ _ _ _ Hacc Hd) as (_ & Hget & _).
  destruct (dispatch_fields _ _ _ _ _ _ _ Hd) as (Hmc & _).
  eexists. by split.
Qed.

(** X8. [messageCount] counts the accepted messages.  Along any run of
    events from a reachable store, the [messageCount] of a conversation
    grows by the number of [messageReceived] events of that conversation
    that [handleEvent] accepted; duplicates, stale events and events without
    timestamp or id do not count.  From a new store the counter is that
    number. *)
Theorem messageCount_counts_accepted events st conversationId :
  reachable st →
  Conversation.messageCount (current conversationId (handleEvents events st))
  = Conversation.messageCount (current conversationId st)
    + acceptedMessages conversationId events st.
Proof.
  revert st. induction events as [|event events IH]; intros st Hreach; simpl; [lia|].
  rewrite IH by by constructor. pose proof (reachable_ok _ Hreach) as Hok.
  destruct (admitted event st) as [[ts cid]|] eqn:Hadm.
  2: { rewrite (admitted_None _ _ Hadm). lia. }
  apply admitted_Some in Hadm.
  destruct (decide (cid = conversationId)) as [->|Hne].
  2: { rewrite (bool_decide_eq_false_2 _ Hne). simpl.
       rewrite current_other; [lia|].
       destruct Hadm as (_ & [-> _]%truthy_Some & _). congruence. }
  rewrite (bool_decide_eq_true_2 (conversationId = conversationId)) by done. simpl.
  destruct (decide (type event ∈ knownTypes)) as [Hty|Hty].
  - destruct (known_fields_of _ _ _ _ Hadm Hty) as (c' & Hget & Hmc).
    unfold current at 1. rewrite Hget. simpl. rewrite Hmc.
    destruct (decide (type event = EventType.MessageReceived)) as [Hm|Hm].
    + rewrite (bool_decide_eq_true_2 _ Hm). lia.
    + rewrite (bool_decide_eq_false_2 _ Hm). lia.
  - rewrite (handleEvent_unknown_ok _ _ Hok Hty).
    rewrite bool_decide_eq_false_2; [lia|].
    intros Hm. apply Hty. rewrite Hm. by_evaluation.
Qed.

Lemma messageCount_counts_accepted_witness :
  let message := event_of EventType.MessageReceived 10 "c1" None None (Some "one"%string) in
  let events :=
    [message; message;
     event_of EventType.MessageReceived 4 "c1" None None (Some "late"%string);
     event_of EventType.MessageReceived 12 "c2" None None (Some "other"%string);
     event_of EventType.MessageReceived 15 "c1" None None (Some "two"%string)] in
  reachable new_Store
  ∧ acceptedMessages "c1" events new_Store = 2
  ∧ Conversation.messageCount (current "c1" (handleEvents events new_Store)) = 2.
Proof.
  cbv zeta. split; [exact reachable_new|]. split; [by_evaluation|].
  rewrite (messageCount_counts_accepted _ _ _ reachable_new). by_evaluation.
Defined.

(** ** Assignment and the read path *)

(** X9. Assignment decides whether a conversation is listed.  After an
    accepted [assigned] or [unassigned] event on a reachable store the
    entry of the conversation is returned by [getConversations] unless the
    event is an [assigned] to a user of the block-list; [unassigned] and an
    [assigned] to any other user, or to none, list it again. *)
Theorem assignment_controls_listing event st timestamp conversationId :
  reachable st →
  accepted event st timestamp conversationId →
  type event = EventType.Assigned ∨ type event = EventType.Unassigned →
  ∃ c, Map_get conversationId (conversations (handleEvent event st)) = Some c
       ∧ (c ∈ (getConversations (handleEvent event st)).1
          ↔ ¬ (type event = EventType.Assigned
               ∧ ∃ u, EventData.user (data event) = Some u ∧ u ∈ blackListedUsers st)).
Proof.
  intros Hreach Hacc Hty.
  pose proof (reachable_ok _ (reachable_handleEvent event st Hreach)) as Hok'.
  pose proof (reachable_ok _ Hreach) as Hok.
  assert (type event ∈ knownTypes) as Hknown.
  { destruct Hty as [-> | ->]; by_evaluation. }
  destruct (dispatch_known (type event) conversationId (data event)
              (current conversationId st) (registered conversationId timestamp st) Hknown)
    as [[c' st'] Hd].
  destruct (handleEvent_known _ _ _ _ _ _ Hacc Hd) as (_ & Hget & _).
  destruct (dispatch_fields _ _ _ _ _ _ _ Hd) as (_ & _ & Huser & _).
  eexists. split; [exact Hget|].
  rewrite (getConversations_elem_of _ _ Hok').
  rewrite (ok_id _ Hok' _ _ Hget), Hget.
  unfold blocked. rewrite (ok_blackList _ Hok'), (ok_blackList _ Hok). simpl. rewrite Huser.
  destruct Hty as [Hty|Hty]; rewrite Hty.
  - rewrite decide_True by done.
    destruct (EventData.user (data event)) as [[|a u]|]; simpl.
    + split; [|tauto]. intros _ (_ & u & [= <-] & Hin).
      by apply list_elem_of_singleton in Hin.
    + split.
      * intros [_ Hnot] (_ & u' & [= <-] & Hin). done.
      * intros Hnot. split; [done|]. intros Hin. apply Hnot. split; [done|]. eauto.
    + split; [|tauto]. by intros _ (_ & u & [=] & _).
  - rewrite decide_False by done. rewrite decide_True by done.
    split; [|tauto]. by intros _ [[=] _].
Qed.

Lemma assignment_controls_listing_witness :
  let st := handleEvent (event_of EventType.MessageReceived 1 "c1" None None
                           (Some "hello"%string)) new_Store in
  let block := event_of EventType.Assigned 2 "c1" (Some "John_Doe"%string) None None in
  let free := event_of EventType.Unassigned 3 "c1" None None None in
  reachable st
  ∧ accepted block st 2 "c1"
  ∧ (∃ c, Map_get "c1" (conversations (handleEvent block st)) = Some c
          ∧ c ∉ (getConversations (handleEvent block st)).1)
  ∧ accepted free (handleEvent block st) 3 "c1"
  ∧ ∃ c, Map_get "c1" (conversations (handleEvent free (handleEvent block st))) = Some c
         ∧ c ∈ (getConversations (handleEvent free (handleEvent block st))).1.
Proof.
  cbv zeta.
  assert (reachable
            (handleEvent (event_of EventType.MessageReceived 1 "c1" None None
                            (Some "hello"%string)) new_Store)) as Hreach
    by (constructor; constructor).
  assert (accepted (event_of EventType.Assigned 2 "c1" (Some "John_Doe"%string) None None)
            (handleEvent (event_of EventType.MessageReceived 1 "c1" None None
                            (Some "hello"%string)) new_Store) 2 "c1") as Hblock
    by accepted_by_evaluation.
  assert (accepted (event_of EventType.Unassigned 3 "c1" None None None)
            (handleEvent (event_of EventType.Assigned 2 "c1" (Some "John_Doe"%string) None None)
               (handleEvent (event_of EventType.MessageReceived 1 "c1" None None
                               (Some "hello"%string)) new_Store)) 3 "c1") as Hfree
    by accepted_by_evaluation.
  split; [exact Hreach|]. split; [exact Hblock|]. split; [|split; [exact Hfree|]].
  - destruct (assignment_controls_listing _ _ _ _ Hreach Hblock (or_introl eq_refl))
      as (c & Hget & Hlisted).
    exists c. split; [exact Hget|]. intros Hin. apply Hlisted in Hin. apply Hin.
    split; [reflexivity|]. exists "John_Doe"%string. split; [reflexivity|]. by_evaluation.
  - destruct (assignment_controls_listing _ _ _ _
                (reachable_handleEvent _ _ Hreach) Hfree (or_intror eq_refl))
      as (c & Hget & Hlisted).
    exists c. split; [exact Hget|]. apply Hlisted. intros [Hty _]. discriminate.
Defined.

(** X10. [getConversations] lists every conversation at most once: on a
    reachable store the ids of the returned entries are distinct. *)
Theorem getConversations_distinct_ids st :
  reachable st → NoDup (Conversation.id <$> (getConversations st).1).
Proof.
  intros Hok%reachable_ok.
  assert (NoDup (Map_values (conversations st))) as Hvalues.
  { unfold Map_values. apply NoDup_fmap_2_strong.
    - intros [k1 c1] [k2 c2] H1 H2 Heq. simpl in Heq. subst c2.
      apply elem_of_Map_get in H1; [|apply Hok]. apply elem_of_Map_get in H2; [|apply Hok].
      by rewrite <-(ok_id _ Hok _ _ H1), <-(ok_id _ Hok _ _ H2).
    - apply (NoDup_fmap_1 fst), Hok. }
  apply NoDup_fmap_2_strong.
  - intros c1 c2 [H1 _]%(getConversations_elem_of _ _ Hok)
      [H2 _]%(getConversations_elem_of _ _ Hok) Heq.
    rewrite Heq in H1. congruence.
  - rewrite (getConversations_Permutation _ Hok). by apply NoDup_filter.
Qed.

Lemma getConversations_distinct_ids_witness :
  let st :=
    handleEvents
      [event_of EventType.MessageReceived 1 "c1" None None (Some "one"%string);
       event_of EventType.MessageReceived 3 "c2" None None (Some "two"%string);
       event_of EventType.MessageReceived 5 "c1" None None (Some "three"%string)]
      new_Store in
  reachable st
  ∧ Conversation.id <$> (getConversations st).1 = ["c1"%string; "c2"%string]
  ∧ NoDup (Conversation.id <$> (getConversations st).1).
Proof.
  cbv zeta.
  assert (reachable
            (handleEvents
               [event_of EventType.MessageReceived 1 "c1" None None (Some "one"%string);
                event_of EventType.MessageReceived 3 "c2" None None (Some "two"%string);
                event_of EventType.MessageReceived 5 "c1" None None (Some "three"%string)]
               new_Store)) as Hreach by apply reachable_handleEvents, reachable_new.
  split; [exact Hreach|]. split; [by_evaluation|].
  exact (getConversations_distinct_ids _ Hreach).
Defined.

(** ** Short bodies *)

Lemma slice0_short n s : (String.length s ≤ n)%nat → slice0 n s = s.
Proof.
  revert s. induction n as [|n IH]; intros [|a s]; simpl; try done; [lia|].
  intros H. rewrite IH; [done|lia].
Qed.

(** X11. While nobody is typing, an accepted [messageReceived] event with
    a body that is not empty and has at most 256 characters makes the whole
    body the blurb. *)
Theorem messageReceived_short_body event st timestamp conversationId b :
  accepted event st timestamp conversationId →
  type event = EventType.MessageReceived →
  EventData.body (data event) = Some b →
  b ≠ EmptyString →
  (String.length b ≤ 256)%nat →
  nobodyTyping conversationId st = true →
  ∃ c, Map_get conversationId (conversations (handleEvent event st)) = Some c
       ∧ Conversation.blurb c = b.
Proof.
  intros Hacc Hty Hbody Hne Hlen Htyping.
  pose proof (dispatch_MessageReceived conversationId (data event)
                (current conversationId st) (registered conversationId timestamp st)) as Hd.
  rewrite nobodyTyping_registered, Htyping, Hbody, <-Hty in Hd.
  change (slice0 256 <$> Some b) with (Some (slice0 256 b)) in Hd.
  rewrite (slice0_short _ _ Hlen), (js_or_Some _ _ Hne) in Hd. cbv zeta in Hd.
  destruct (handleEvent_known _ _ _ _ _ _ Hacc Hd) as (_ & Hget & _).
  eexists. by split.
Qed.

Lemma messageReceived_short_body_witness :
  let event := event_of EventType.MessageReceived 1 "c1" None None (Some "hello"%string) in
  accepted event new_Store 1 "c1"
  ∧ ∃ c, Map_get "c1" (conversations (handleEvent event new_Store)) = Some c
         ∧ Conversation.blurb c = "hello"%string.
Proof.
  cbv zeta.
  assert (accepted (event_of EventType.MessageReceived 1 "c1" None None (Some "hello"%string))
            new_Store 1 "c1") as Hacc by accepted_by_evaluation.
  split; [exact Hacc|].
  apply (messageReceived_short_body _ _ _ _ _ Hacc eq_refl eq_refl);
    [discriminate | simpl; lia | reflexivity].
Defined.

(** ** The typing tracker *)

Lemma with_typingUsers_same st : with_typingUsers (typingUsers st) st = st.
Proof. by destruct st. Qed.

Lemma with_typingUsers_twice x y st :
  with_typingUsers x (with_typingUsers y st) = with_typingUsers x st.
Proof. done. Qed.

Lemma Set_add_present u l : u ∈ l → Set_add u l = l.
Proof. intros Hu. unfold Set_add. by rewrite decide_True. Qed.

Lemma Set_delete_absent u l : u ∉ l → Set_delete u l = l.
Proof.
  intros Hu. unfold Set_delete. induction l as [|x l IH]; [done|].
  apply not_elem_of_cons in Hu as [Hx Hl].
  rewrite filter_cons_True by done. by rewrite IH.
Qed.

Lemma Set_delete_add u l : u ∉ l → Set_delete u (Set_add u l) = l.
Proof.
  intros Hu. unfold Set_add. rewrite decide_False by done.
  unfold Set_delete. rewrite filter_app. fold (Set_delete u l).
  rewrite (Set_delete_absent _ _ Hu), filter_cons_False, filter_nil by (by intros ?).
  by rewrite app_nil_r.
Qed.

Lemma append_not_empty x y : y ≠ EmptyString → x +:+ y ≠ EmptyString.
Proof. by destruct x. Qed.

Lemma replying_empty l : replying l = EmptyString ↔ l = [].
Proof.
  destruct l as [|u [|v l]]; simpl; [done|..]; (split; [|done]); intros Heq;
    by apply append_not_empty in Heq.
Qed.

(** X13. The typing phrase of a conversation is the empty string exactly
    when nobody is typing in it, in the sense of the guard that decides
    whether a message may set the blurb: the conversation has no typing set
    or an empty one. *)
Theorem getBlurbForTypingUsers_empty_iff conversationId st :
  getBlurbForTypingUsers conversationId st = EmptyString
  ↔ nobodyTyping conversationId st = true.
Proof.
  unfold getBlurbForTypingUsers, nobodyTyping.
  destruct (typingUsers st !! conversationId) as [l|]; simpl; [|done].
  rewrite replying_empty, bool_decide_eq_true. by destruct l.
Qed.

(** X14. [addAndgetBlurbForTypingUsers] is idempotent: naming the same
    user again for the same conversation returns the same phrase and
    leaves the store as the first call left it; a user is in the typing set
    once. *)
Theorem addAndgetBlurbForTypingUsers_idempotent conversationId user st :
  addAndgetBlurbForTypingUsers conversationId user
    (addAndgetBlurbForTypingUsers conversationId user st).2
  = addAndgetBlurbForTypingUsers conversationId user st.
Proof.
  unfold addAndgetBlurbForTypingUsers. destruct (truthy user) as [u|]; simpl; [|done].
  rewrite lookup_insert_eq. simpl.
  rewrite (Set_add_present u (Set_add u _)) by (apply Set_add_elem_of; by left).
  by rewrite with_typingUsers_twice, insert_insert_eq.
Qed.

(** X15. Start and stop are inverse.  When a user with a name that is not
    empty, who is not typing in the conversation, is added with
    [addAndgetBlurbForTypingUsers] and removed again with
    [deleteBlurbForTypingUsers], the store is what it was before, provided
    the typing set of the conversation, if there is one, is not empty.  The
    second call returns the phrase of the users who remain, or the pending
    body (or [""]) when none remains. *)
Theorem typing_start_stop_round_trip conversationId conversation u st :
  u ≠ EmptyString →
  (∀ found, typingUsers st !! conversationId = Some found → found ≠ [] ∧ u ∉ found) →
  deleteBlurbForTypingUsers conversationId conversation (Some u)
    (addAndgetBlurbForTypingUsers conversationId (Some u) st).2
  = (match typingUsers st !! conversationId with
     | Some found => replying found
     | None => js_or (lastBody st !! conversationId) ""
     end, st).
Proof.
  intros Hu Hfound.
  assert (truthy (Some u) = Some u) as Htruthy by by destruct u.
  unfold deleteBlurbForTypingUsers, addAndgetBlurbForTypingUsers.
  rewrite Htruthy. simpl. rewrite lookup_insert_eq. simpl. rewrite lookup_insert_eq.
  destruct (typingUsers st !! conversationId) as [found|] eqn:Hset; simpl.
  - destruct (Hfound found eq_refl) as [Hne Hnot].
    rewrite (Set_delete_add _ _ Hnot), insert_insert_eq.
    rewrite insert_id by done.
    rewrite !with_typingUsers_twice, with_typingUsers_same.
    by destruct found.
  - rewrite (Set_delete_add u []) by apply not_elem_of_nil.
    rewrite insert_insert_eq, delete_insert_eq, delete_id by done.
    by rewrite !with_typingUsers_twice, with_typingUsers_same.
Qed.

Lemma typing_start_stop_round_trip_witness :
  let st := handleEvent (event_of EventType.TypingStarted 1 "c1" (Some "u1"%string) None None)
              new_Store in
  let conversation := Conversation.mk "c1" None "" "u1 is replying..." 0 1 in
  "u2"%string ≠ EmptyString
  ∧ deleteBlurbForTypingUsers "c1" conversation (Some "u2"%string)
      (addAndgetBlurbForTypingUsers "c1" (Some "u2"%string) st).2
    = ("u1 is replying..."%string, st).
Proof.
  cbv zeta. split; [discriminate|].
  rewrite typing_start_stop_round_trip; [by_evaluation | discriminate |].
  intros found Hfound.
  assert (found = ["u1"%string]) as ->.
  { assert (Some found = Some ["u1"%string]) as Heq by (rewrite <-Hfound; by_evaluation).
    by injection Heq. }
  split; [discriminate|]. by_evaluation.
Defined.

(** X16. [deleteBlurbForTypingUsers] for a user who is not typing.  When
    the conversation has a typing set that is not empty and the user is
    absent, is the empty string, or is not in the set, the call leaves the
    store as it is and returns the phrase of the users who are typing. *)
Theorem deleteBlurbForTypingUsers_not_typing conversationId conversation user st found :
  typingUsers st !! conversationId = Some found →
  found ≠ [] →
  (∀ u, user = Some u → u = EmptyString ∨ u ∉ found) →
  deleteBlurbForTypingUsers conversationId conversation user st = (replying found, st).
Proof.
  intros Hfound Hne Huser. unfold deleteBlurbForTypingUsers. rewrite Hfound.
  destruct (truthy user) as [u|] eqn:Htruthy; simpl.
  - apply truthy_Some in Htruthy as [-> Hu].
    destruct (Huser u eq_refl) as [?|Hnot]; [done|].
    rewrite lookup_insert_eq, (Set_delete_absent _ _ Hnot).
    rewrite insert_id by done. rewrite with_typingUsers_same. by destruct found.
  - rewrite Hfound. by destruct found.
Qed.

Lemma deleteBlurbForTypingUsers_not_typing_witness :
  let st := handleEvent (event_of EventType.TypingStarted 1 "c1" (Some "u1"%string) None None)
              new_Store in
  let conversation := Conversation.mk "c1" None "" "u1 is replying..." 0 1 in
  typingUsers st !! "c1"%string = Some ["u1"%string]
  ∧ deleteBlurbForTypingUsers "c1" conversation (Some "u2"%string) st
    = ("u1 is replying..."%string, st).
Proof.
  cbv zeta.
  assert (typingUsers
            (handleEvent (event_of EventType.TypingStarted 1 "c1" (Some "u1"%string) None None)
               new_Store) !! "c1"%string = Some ["u1"%string]) as Hfound by by_evaluation.
  split; [exact Hfound|].
  apply (deleteBlurbForTypingUsers_not_typing _ _ _ _ _ Hfound); [discriminate|].
  intros u [= <-]. right. by_evaluation.
Defined.

(** X17. An accepted [typingStarted] event.  A user with a name that is
    not empty joins the typing set of the conversation (once, at its end if
    new), an absent or empty user changes no typing set; the pending bodies
    are kept; and the blurb of the conversation becomes the typing phrase
    of the set after the call, which is not empty once a user is named. *)
Theorem typingStarted_blurb event st timestamp conversationId :
  accepted event st timestamp conversationId →
  type event = EventType.TypingStarted →
  ∃ c, Map_get conversationId (conversations (handleEvent event st)) = Some c
       ∧ Conversation.blurb c = getBlurbForTypingUsers conversationId (handleEvent event st)
       ∧ typingUsers (handleEvent event st)
         = (match truthy (EventData.user (data event)) with
            | Some u =>
                <[conversationId := Set_add u (default [] (typingUsers st !! conversationId))]>
                  (typingUsers st)
            | None => typingUsers st
            end)
       ∧ lastBody (handleEvent event st) = lastBody st
       ∧ (∀ u, EventData.user (data event) = Some u → u ≠ EmptyString →
               u ∈ default [] (typingUsers (handleEvent event st) !! conversationId)
               ∧ Conversation.blurb c ≠ EmptyString).
Proof.
  intros Hacc Hty.
  pose proof (dispatch_TypingStarted conversationId (data event)
                (current conversationId st) (registered conversationId timestamp st)) as Hd.
  rewrite <-Hty in Hd.
  destruct (handleEvent_known _ _ _ _ _ _ Hacc Hd) as (Heq & Hget & _).
  assert (typingUsers (handleEvent event st)
          = match truthy (EventData.user (data event)) with
            | Some u =>
                <[conversationId := Set_add u (default [] (typingUsers st !! conversationId))]>
                  (typingUsers st)
            | None => typingUsers st
            end) as Htu.
  { rewrite Heq, typingUsers_with_conversations,
      addAndgetBlurbForTypingUsers_typingUsers.
    by rewrite typingUsers_registered. }
  assert (Conversation.blurb
            (Conversation.with_lastUpdatedTimestamp timestamp
               (Conversation.with_blurb
                  (addAndgetBlurbForTypingUsers conversationId (EventData.user (data event))
                     (registered conversationId timestamp st)).1
                  (current conversationId st)))
          = getBlurbForTypingUsers conversationId (handleEvent event st)) as Hblurb.
  { unfold getBlurbForTypingUsers. rewrite Heq, typingUsers_with_conversations. done. }
  eexists. split; [exact Hget|]. split; [exact Hblurb|]. split; [exact Htu|]. split.
  - rewrite Heq, lastBody_with_conversations.
    destruct (addAndgetBlurbForTypingUsers_frame conversationId (EventData.user (data event))
                (registered conversationId timestamp st)) as (_ & _ & _ & ->).
    apply lastBody_registered.
  - intros u Hu Hne. rewrite Hblurb. unfold getBlurbForTypingUsers.
    rewrite Htu, Hu. assert (truthy (Some u) = Some u) as -> by by destruct u.
    rewrite lookup_insert_eq. simpl.
    assert (u ∈ Set_add u (default [] (typingUsers st !! conversationId))) as Hin
      by (apply Set_add_elem_of; by left).
    split; [done|]. rewrite replying_empty. intros Hnil. rewrite Hnil in Hin.
    by apply elem_of_nil in Hin.
Qed.

Lemma typingStarted_blurb_witness :
  let st := handleEvent (event_of EventType.TypingStarted 1 "c1" (Some "u1"%string) None None)
              new_Store in
  let event := event_of EventType.TypingStarted 2 "c1" (Some "u2"%string) None None in
  accepted event st 2 "c1"
  ∧ ∃ c, Map_get "c1" (conversations (handleEvent event st)) = Some c
         ∧ Conversation.blurb c = "u1, u2 are replying..."%string
         ∧ typingUsers (handleEvent event st) !! "c1"%string
           = Some ["u1"%string; "u2"%string].
Proof.
  cbv zeta.
  assert (accepted (event_of EventType.TypingStarted 2 "c1" (Some "u2"%string) None None)
            (handleEvent (event_of EventType.TypingStarted 1 "c1" (Some "u1"%string) None None)
               new_Store) 2 "c1") as Hacc by accepted_by_evaluation.
  split; [exact Hacc|].
  destruct (typingStarted_blurb _ _ _ _ Hacc eq_refl) as (c & Hget & Hblurb & _).
  exists c. split; [exact Hget|]. split; [|by_evaluation].
  rewrite Hblurb. by_evaluation.
Defined.

(** X18. The typing tracker of a reachable store.  A typing set that is
    stored is not empty, holds no user twice and no empty name; its
    conversation has a registry entry, and the blurb of that entry is the
    typing phrase of the set, which is not empty. *)
Theorem reachable_typing_invariant st conversationId users :
  reachable st →
  typingUsers st !! conversationId = Some users →
  users ≠ [] ∧ (EmptyString ∉ users) ∧ NoDup users
  ∧ ∃ c, Map_get conversationId (conversations st) = Some c
         ∧ Conversation.blurb c = getBlurbForTypingUsers conversationId st
         ∧ Conversation.blurb c ≠ EmptyString.
Proof.
  intros Hreach Husers.
  destruct (reachable_Typing_ok _ Hreach _ _ Husers) as (Hne & Hno & Hnd).
  destruct (reachable_Blurb_ok _ Hreach) as [Hfiled Hblurb].
  split; [done|]. split; [done|]. split; [done|].
  destruct (Hfiled _ _ Husers) as [c Hc]. exists c. split; [done|].
  specialize (Hblurb _ _ Hc). unfold blurb_source in Hblurb. rewrite Husers in Hblurb.
  unfold getBlurbForTypingUsers. rewrite Husers. simpl. split; [done|].
  rewrite Hblurb, replying_empty. done.
Qed.

Lemma reachable_typing_invariant_witness :
  let st :=
    handleEvents
      [event_of EventType.TypingStarted 1 "c1" (Some "u1"%string) None None;
       event_of EventType.MessageReceived 2 "c1" None None (Some "hi"%string);
       event_of EventType.TypingStarted 3 "c1" (Some "u2"%string) None None;
       event_of EventType.TypingStopped 4 "c1" (Some "u1"%string) None None]
      new_Store in
  reachable st
  ∧ typingUsers st !! "c1"%string = Some ["u2"%string]
  ∧ ∃ c, Map_get "c1" (conversations st) = Some c
         ∧ Conversation.blurb c = "u2 is replying..."%string.
Proof.
  cbv zeta.
  assert (reachable
            (handleEvents
               [event_of EventType.TypingStarted 1 "c1" (Some "u1"%string) None None;
                event_of EventType.MessageReceived 2 "c1" None None (Some "hi"%string);
                event_of EventType.TypingStarted 3 "c1" (Some "u2"%string) None None;
                event_of EventType.TypingStopped 4 "c1" (Some "u1"%string) None None]
               new_Store)) as Hreach by apply reachable_handleEvents, reachable_new.
  split; [exact Hreach|]. split; [by_evaluation|].
  destruct (reachable_typing_invariant _ "c1"%string ["u2"%string] Hreach ltac:(by_evaluation))
    as (_ & _ & _ & c & Hget & Hblurb & _).
  exists c. split; [exact Hget|]. rewrite Hblurb. by_evaluation.
Defined.

(** ** Pruning *)

Lemma isEmpty_true c : isEmpty c = true ↔ c = defaultConversation (Conversation.id c).
Proof.
  unfold isEmpty, defaultConversation. rewrite !andb_true_iff, !bool_decide_eq_true.
  destruct c as [i a s b m t]; simpl. split.
  - intros ((((-> & ->) & ->) & ->) & ->). done.
  - intros [= -> -> -> -> ->]. done.
Qed.

(** X19. [isConversationEmptyThenRemove] on any store.  It returns [true]
    exactly when the id has no entry or its entry equals the default
    conversation for its id, and then no entry is left for the id; it
    returns [false] otherwise and leaves the store as it is.  Either way
    the entries of other ids, the dedup guard, the typing sets, the pending
    bodies and the block-list are kept, and a second call returns the same
    answer and changes nothing more. *)
Theorem isConversationEmptyThenRemove_spec conversationId st :
  let result := (isConversationEmptyThenRemove conversationId st).1 in
  let st' := (isConversationEmptyThenRemove conversationId st).2 in
  (result = true
   ↔ Map_get conversationId (conversations st) = None
     ∨ ∃ c, Map_get conversationId (conversations st) = Some c
            ∧ c = defaultConversation (Conversation.id c))
  ∧ (result = true ↔ Map_get conversationId (conversations st') = None)
  ∧ (result = false → st' = st)
  ∧ (∀ k, k ≠ conversationId →
          Map_get k (conversations st') = Map_get k (conversations st))
  ∧ uniqueEvents st' = uniqueEvents st
  ∧ typingUsers st' = typingUsers st
  ∧ lastBody st' = lastBody st
  ∧ blackListedUsers st' = blackListedUsers st
  ∧ isConversationEmptyThenRemove conversationId st' = (result, st').
Proof.
  unfold isConversationEmptyThenRemove.
  destruct (Map_get conversationId (conversations st)) as [c|] eqn:Hget; simpl.
  - destruct (isEmpty c) eqn:Hempty; simpl.
    + rewrite Map_get_delete_eq.
      split; [split; [|done]; intros _; right; exists c; by rewrite <-isEmpty_true|].
      split; [done|]. split; [done|].
      split; [intros k Hk; by apply Map_get_delete_ne|]. done.
    + rewrite Hget, Hempty.
      split.
      { split; [done|]. intros [?|(c0 & [= <-] & Hc0)]; [done|].
        apply isEmpty_true in Hc0. congruence. }
      done.
  - rewrite Hget. split; [split; [by left|done]|]. done.
Qed.

(** X20. On a reachable store [isConversationEmptyThenRemove] removes
    nothing: no entry is in the default shape, so the call only reports
    whether the id has an entry. *)
Theorem isConversationEmptyThenRemove_reachable conversationId st :
  reachable st →
  (isConversationEmptyThenRemove conversationId st).2 = st
  ∧ ((isConversationEmptyThenRemove conversationId st).1 = true
     ↔ Map_get conversationId (conversations st) = None).
Proof.
  intros Hok%reachable_ok. unfold isConversationEmptyThenRemove.
  destruct (Map_get conversationId (conversations st)) as [c|] eqn:Hget; [|done].
  rewrite isEmpty_stamped by (by eapply ok_stamped). done.
Qed.

Lemma isConversationEmptyThenRemove_reachable_witness :
  let st := handleEvent (event_of EventType.Unassigned 1 "c1" None None None) new_Store in
  reachable st
  ∧ isConversationEmptyThenRemove "c1" st = (false, st)
  ∧ isConversationEmptyThenRemove "c2" st = (true, st).
Proof.
  cbv zeta.
  assert (reachable
            (handleEvent (event_of EventType.Unassigned 1 "c1" None None None) new_Store))
    as Hreach by (constructor; constructor).
  split; [exact Hreach|]. split.
  - destruct (isConversationEmptyThenRemove_reachable "c1" _ Hreach) as [Hstore Hresult].
    rewrite <-Hstore at 2.
    destruct (isConversationEmptyThenRemove "c1" _) as [[|] st']; simpl in *; [|done].
    destruct Hresult as [Hresult _]. specialize (Hresult eq_refl).
    vm_compute in Hresult. discriminate.
  - destruct (isConversationEmptyThenRemove_reachable "c2" _ Hreach) as [Hstore Hresult].
    rewrite <-Hstore at 2.
    destruct (isConversationEmptyThenRemove "c2" _) as [[|] st']; simpl in *; [done|].
    destruct Hresult as [_ Hresult]. by rewrite Hresult by by_evaluation.
Defined.

(** ** Redelivery *)

Lemma handleEvents_ok events st : Store_ok st → Store_ok (handleEvents events st).
Proof.
  revert st. induction events as [|event events IH]; intros st Hok; simpl; [done|].
  by apply IH, handleEvent_ok.
Qed.

Lemma stale_persists events st cid ts :
  Store_ok st →
  stale (Map_get cid (conversations st)) cid ts = true →
  stale (Map_get cid (conversations (handleEvents events st))) cid ts = true.
Proof.
  intros Hok Hstale.
  destruct (Map_get cid (conversations st)) as [c|] eqn:Hc; [|done].
  destruct (handleEvents_watermark events st cid c Hok Hc) as (c' & Hc' & Hle).
  rewrite Hc'. unfold stale in *.
  apply andb_true_iff in Hstale as [_ Hgt%bool_decide_eq_true].
  rewrite (bool_decide_eq_true_2 (Conversation.id c' = cid)).
  - simpl. apply bool_decide_eq_true. lia.
  - eapply ok_id; [by apply handleEvents_ok|done].
Qed.

(** X21. Redelivery is harmless.  Once [handleEvent] has been called with
    an event on a reachable store, calling it again with the same event at
    any later time, after any run of other events, changes nothing: a known
    kind that was accepted is stopped by the dedup guard, an event that was
    stale is still stale, an event without timestamp or id is still
    invalid, and an unknown kind never changes a reachable store. *)
Theorem redelivery_is_noop event events st :
  reachable st →
  handleEvent event (handleEvents events (handleEvent event st))
  = handleEvents events (handleEvent event st).
Proof.
  intros Hreach. pose proof (reachable_ok _ Hreach) as Hok.
  pose proof (handleEvent_ok event st Hok) as Hok1.
  pose proof (handleEvents_ok events _ Hok1) as Hok2.
  destruct (decide (type event ∈ knownTypes)) as [Hty|Hty].
  2: { by apply handleEvent_unknown_ok. }
  destruct (truthy_number (EventData.timestamp (data event))) as [ts|] eqn:Hts.
  2: { apply handleEvent_rejected. intros ? ? (? & _). congruence. }
  destruct (truthy (EventData.conversationId (data event))) as [cid|] eqn:Hcid.
  2: { apply handleEvent_rejected. intros ? ? (_ & ? & _). congruence. }
  destruct (stale (Map_get cid (conversations st)) cid ts) eqn:Hstale.
  { assert (handleEvent event st = st) as Hsame.
    { apply handleEvent_rejected. intros ? ? (? & ? & ? & _). congruence. }
    rewrite Hsame. apply handleEvent_rejected. intros ts' cid' (Hts' & Hcid' & Hstale' & _).
    assert (ts' = ts) as -> by congruence. assert (cid' = cid) as -> by congruence.
    by rewrite (stale_persists events st cid ts Hok Hstale) in Hstale'. }
  apply (handleEvent_recorded _ _ ts cid Hts Hcid), handleEvents_uniqueEvents_mono.
  destruct (decide (eventId cid ts ∈ uniqueEvents st)) as [Hin|Hfresh].
  { by apply handleEvent_uniqueEvents_mono. }
  assert (accepted event st ts cid) as Hacc by done.
  destruct (dispatch_known (type event) cid (data event) (current cid st)
              (registered cid ts st) Hty) as [[c' st'] Hd].
  by destruct (handleEvent_known _ _ _ _ _ _ Hacc Hd) as (_ & _ & ?).
Qed.

Lemma redelivery_is_noop_witness :
  let event := event_of EventType.MessageReceived 10 "c1" None None (Some "one"%string) in
  let events := [event_of EventType.MessageReceived 20 "c1" None None (Some "two"%string);
                 event_of EventType.TypingStarted 30 "c2" (Some "u1"%string) None None] in
  reachable new_Store
  ∧ handleEvent event (handleEvents events (handleEvent event new_Store))
    = handleEvents events (handleEvent event new_Store).
Proof.
  cbv zeta. split; [exact reachable_new|]. exact (redelivery_is_noop _ _ _ reachable_new).
Defined.

(** ** Long blurbs *)

(** X23. On a reachable store a blurb of more than 256 characters is the
    typing phrase of its conversation or the pending body stashed for it:
    nothing else gets past [slice(0, 256)]. *)
Theorem long_blurb_is_phrase_or_pending st conversationId c :
  reachable st →
  Map_get conversationId (conversations st) = Some c →
  (256 < String.length (Conversation.blurb c))%nat →
  Conversation.blurb c = getBlurbForTypingUsers conversationId st
  ∨ lastBody st !! conversationId = Some (Conversation.blurb c).
Proof.
  intros [_ Hblurb]%reachable_Blurb_ok Hc Hlong.
  specialize (Hblurb _ _ Hc). unfold blurb_source, getBlurbForTypingUsers in *.
  destruct (typingUsers st !! conversationId); simpl; [by left|].
  destruct Hblurb as [?|?]; [lia | by right].
Qed.

Lemma long_blurb_is_phrase_or_pending_witness :
  let body := repeat_string "A" 300 in
  let st :=
    handleEvents
      [event_of EventType.TypingStarted 1 "c1" (Some "u1"%string) None None;
       event_of EventType.MessageReceived 2 "c1" None None (Some body);
       event_of EventType.TypingStopped 3 "c1" (Some "u1"%string) None None]
      new_Store in
  reachable st
  ∧ Map_get "c1" (conversations st) = Some (Conversation.mk "c1" None "" body 1 3)
  ∧ (256 < String.length body)%nat
  ∧ (body = getBlurbForTypingUsers "c1" st ∨ lastBody st !! "c1"%string = Some body).
Proof.
  cbv zeta.
  assert (reachable
            (handleEvents
               [event_of EventType.TypingStarted 1 "c1" (Some "u1"%string) None None;
                event_of EventType.MessageReceived 2 "c1" None None
                  (Some (repeat_string "A" 300));
                event_of EventType.TypingStopped 3 "c1" (Some "u1"%string) None None]
               new_Store)) as Hreach by apply reachable_handleEvents, reachable_new.
  assert (256 < String.length (repeat_string "A" 300))%nat as Hlong
    by (apply Nat.ltb_lt; vm_compute; reflexivity).
  split; [exact Hreach|]. split; [by_evaluation|]. split; [exact Hlong|].
  apply (long_blurb_is_phrase_or_pending _ "c1"%string
           (Conversation.mk "c1" None "" (repeat_string "A" 300) 1 3) Hreach);
    [by_evaluation | exact Hlong].
Defined.
